(** * SmartStatus.js (mlondiem-ss.js, v0.9.2): a shallow embedding

    The library is one class, [SmartStatus], a thin layer over jQuery and
    the DOM, plus the page-wide table [window._smart_statuses].  The
    embedding has three layers:

    - [Dom]    : the part of the document the class can observe or change
                 (elements in a store addressed by reference, the child
                 list of [document.body]);
    - [JQuery] : the jQuery calls that occur in the source, as functions on
                 sets of element references;
    - [SmartStatus] : the class itself, method by method, over a store of
                 widget objects and the registry.

    Objects are addressed by reference because the source shares them: the
    registry holds the widget object itself, and [attach] with [overwrite]
    makes two widgets point at the same elements.

    [Run] defines the states a page can reach and the shape all of them
    have; [DomFacts] and [Invariant] prove the facts about the document
    and that shape; [Lifecycle] and [Display] hold the properties of the
    registry and of what a widget shows. *)

From stdpp Require Import base option strings list gmap.
From Stdlib Require Import ZArith Lia ZifyNat.

Local Open Scope string_scope.
Local Open Scope list_scope.

(** ** The document *)

Module Dom.

(** References to elements.  Elements are never freed while a script can
    still name them, so the store is a list and a reference an index. *)
Abbreviation ref := nat (only parsing).

(** jQuery durations: one of the keywords ['slow'] and ['fast'], or a number
    of milliseconds. *)
Inductive duration :=
| Slow
| Fast
| Ms (n : Z).

(** The transition last requested on an element.  The animation itself
    runs after the call returns; what the call leaves behind is the
    request. *)
Inductive fade :=
| FadeIn (d : duration)
| FadeOut (d : duration).

Record element := Element {
  tag : string;
  classes : list string;          (* the class attribute, split *)
  data_id : option string;        (* the data-id attribute *)
  inner : string;                 (* text set through html() *)
  children : list ref;            (* child elements, in document order *)
  css_left : option string;       (* inline style set through css() *)
  css_top : option string;
  fx : option fade;               (* last fadeIn / fadeOut requested *)
  on_click : bool                 (* the close handler of the constructor is bound *)
}.

Definition with_classes (c : list string) (e : element) : element :=
  Element (tag e) c (data_id e) (inner e) (children e)
          (css_left e) (css_top e) (fx e) (on_click e).

Definition with_data_id (v : string) (e : element) : element :=
  Element (tag e) (classes e) (Some v) (inner e) (children e)
          (css_left e) (css_top e) (fx e) (on_click e).

(** [el.innerHTML = v]: the former content, child elements included, is
    replaced.  The new content is kept as the text [v] and brings no child
    element: that is what the browser does for a [v] without markup
    ([JQuery.plain] below).  A [v] with markup is parsed, and the elements
    it describes become children; the embedding does not follow that, and
    the statements about what html() gives back or about which elements
    the document holds are made for plain text. *)
Definition with_inner (v : string) (e : element) : element :=
  Element (tag e) (classes e) (data_id e) v []
          (css_left e) (css_top e) (fx e) (on_click e).

Definition with_children (c : list ref) (e : element) : element :=
  Element (tag e) (classes e) (data_id e) (inner e) c
          (css_left e) (css_top e) (fx e) (on_click e).

Definition with_css (l t : string) (e : element) : element :=
  Element (tag e) (classes e) (data_id e) (inner e) (children e)
          (Some l) (Some t) (fx e) (on_click e).

Definition with_fx (f : fade) (e : element) : element :=
  Element (tag e) (classes e) (data_id e) (inner e) (children e)
          (css_left e) (css_top e) (Some f) (on_click e).

Definition without_handlers (e : element) : element :=
  Element (tag e) (classes e) (data_id e) (inner e) (children e)
          (css_left e) (css_top e) (fx e) false.

(** The document: the element store, the children of [document.body] in
    order, and the transition last requested on the body itself. *)
Record document := Document {
  elems : list element;
  body : list ref;
  body_fx : option fade
}.

Definition empty_document : document := Document [] [] None.

(** A node that can be a parent. *)
Inductive node :=
| Body
| Elem (r : ref).

(** The element [r] and everything below it, in document order.  The
    recursion is bounded by a depth; [length (elems d)] levels reach every
    element of a tree stored in [elems d]. *)
Fixpoint subtree (depth : nat) (h : list element) (r : ref) : list ref :=
  match depth with
  | 0 => []
  | S n =>
      match h !! r with
      | Some e => r :: (children e ≫= subtree n h)
      | None => []
      end
  end.

Definition descendants (d : document) (r : ref) : list ref :=
  match elems d !! r with
  | Some e => children e ≫= subtree (length (elems d)) (elems d)
  | None => []
  end.

(** Every element attached to the document, in document order. *)
Definition in_document (d : document) : list ref :=
  body d ≫= subtree (length (elems d)) (elems d).

(** [el.parentNode], read off the child lists. *)
Definition parent_of (d : document) (r : ref) : option node :=
  if decide (r ∈ body d) then Some Body
  else (λ p, Elem p.1) <$> list_find (λ e, r ∈ children e) (elems d).

Definition drop_ref (r : ref) (l : list ref) : list ref :=
  filter (λ x, x ≠ r) l.

(** [el.parentNode.removeChild(el)]: afterwards no child list names [r]. *)
Definition detach (r : ref) (d : document) : document :=
  Document ((λ e, with_children (drop_ref r (children e)) e) <$> elems d)
           (drop_ref r (body d))
           (body_fx d).

(** [document.body.appendChild(el)]: an element that already sits
    somewhere is moved. *)
Definition append_to_body (r : ref) (d : document) : document :=
  let d' := detach r d in
  Document (elems d') (body d' ++ [r]) (body_fx d').

(** [r] hangs nowhere: neither the body nor any element has it as child. *)
Definition unlinked (r : ref) (d : document) : Prop :=
  (r ∉ body d) ∧ (∀ e, e ∈ elems d → r ∉ children e).

(** Everything about an element except the transition requested on it. *)
Definition content (e : element) :=
  (tag e, classes e, data_id e, inner e, children e,
   css_left e, css_top e, on_click e).

(** Two documents that differ at most in the transitions requested. *)
Definition same_but_fx (d d' : document) : Prop :=
  length (elems d') = length (elems d)
  ∧ body d' = body d
  ∧ (∀ r, content <$> elems d' !! r = content <$> elems d !! r).

(** [p.appendChild(r)] *)
Definition append_child (p r : ref) (d : document) : document :=
  let d' := detach r d in
  Document (alter (λ e, with_children (children e ++ [r]) e) p (elems d'))
           (body d') (body_fx d').

(** Create an element outside the document; its reference is returned. *)
Definition create (e : element) (d : document) : ref * document :=
  (length (elems d), Document (elems d ++ [e]) (body d) (body_fx d)).

End Dom.

(** ** The jQuery calls of the source

    A jQuery object is a set of element references; every setter acts on
    each member, every getter reads the first member and yields [undefined]
    (here [None]) on the empty set. *)

Module JQuery.
Import Dom.

Abbreviation jq := (list nat) (only parsing).

(** [this.each(function () { f(this) })] *)
Definition each (f : element → element) (q : jq) (d : document) : document :=
  Document (foldl (λ h r, alter f r h) (elems d) q) (body d) (body_fx d).

Definition first {A} (g : element → A) (q : jq) (d : document) : option A :=
  r ← head q; g <$> elems d !! r.

(** [q.attr('data-id')] *)
Definition attr_data_id (q : jq) (d : document) : option string :=
  mjoin (first data_id q d).

(** [q.attr('data-id', v)] *)
Definition set_attr_data_id (v : string) : jq → document → document :=
  each (with_data_id v).

(** [q.attr('class', 'c1 c2 ...')], the value given already split *)
Definition set_attr_class (c : list string) : jq → document → document :=
  each (with_classes c).

(** [q.removeClass(c)] *)
Definition removeClass (c : string) : jq → document → document :=
  each (λ e, with_classes (filter (λ x, x ≠ c) (classes e)) e).

(** [q.addClass(c)]: a class already present is not added again. *)
Definition addClass (c : string) : jq → document → document :=
  each (λ e, if decide (c ∈ classes e) then e
             else with_classes (classes e ++ [c]) e).

(** Text that [innerHTML] takes as one text node and gives back letter for
    letter: printable ASCII without the ampersand and the two angle
    brackets.  Anything else may be parsed as markup when written, and is
    serialised when read (an ampersand comes back as an entity). *)
Definition plain_char (a : Ascii.ascii) : bool :=
  let n := Ascii.nat_of_ascii a in
  Nat.leb 32 n && Nat.ltb n 127
  && negb (Nat.eqb n 38) && negb (Nat.eqb n 60) && negb (Nat.eqb n 62).

Fixpoint plain (str : string) : bool :=
  match str with
  | EmptyString => true
  | String a rest => plain_char a && plain rest
  end.

(** [q.html()]: the content of the first member, as it was written.  The
    browser gives back the serialised content; for [plain] text the two
    are the same string. *)
Definition html (q : jq) (d : document) : option string :=
  first inner q d.

(** [q.html(v)]; with [v] undefined the call is the getter and changes
    nothing. *)
Definition set_html (v : option string) (q : jq) (d : document) : document :=
  match v with
  | Some str => each (with_inner str) q d
  | None => d
  end.

(** [q.css({left: l, top: t})] *)
Definition css (l t : string) : jq → document → document :=
  each (with_css l t).

(** [q.fadeIn(dur)] and [q.fadeOut(dur)] *)
Definition fadeIn (dur : duration) : jq → document → document :=
  each (with_fx (FadeIn dur)).

Definition fadeOut (dur : duration) : jq → document → document :=
  each (with_fx (FadeOut dur)).

(** [q.appendTo(document.body)] *)
Definition appendTo_body (q : jq) (d : document) : document :=
  foldl (λ d r, append_to_body r d) d q.

(** [jQuery.cleanData(nodes)]: bound events are dropped. *)
Definition cleanData (nodes : list ref) (d : document) : document :=
  each without_handlers nodes d.

(** [q.remove()]: for each member, the events bound on it and on everything
    below it are dropped, then it is taken out of its parent.  The
    attributes of the element stay as they were. *)
Definition remove (q : jq) (d : document) : document :=
  foldl (λ d r,
           detach r (cleanData (subtree (length (elems d)) (elems d) r) d))
        d q.

Definition matches (t : string) (c : string) (d : document) (r : ref) : bool :=
  match elems d !! r with
  | Some e => bool_decide (tag e = t ∧ c ∈ classes e)
  | None => false
  end.

(** [q.find(t + '.' + c)]: the elements below the members of [q] with tag
    [t] and class [c], without repetition. *)
Definition find_below (t c : string) (q : jq) (d : document) : jq :=
  remove_dups (q ≫= λ r, filter (λ x, matches t c d x) (descendants d r)).

Definition div_with_data_id (k : string) (d : document) (r : ref) : bool :=
  match elems d !! r with
  | Some e => bool_decide (tag e = "div" ∧ data_id e = Some k)
  | None => false
  end.

(** A key that can be spliced between the quotes of an attribute selector
    and is read back as it was written: printable ASCII without the double
    quote and the backslash. *)
Definition selector_safe_char (a : Ascii.ascii) : bool :=
  let n := Ascii.nat_of_ascii a in
  Nat.leb 32 n && Nat.ltb n 127 && negb (Nat.eqb n 34) && negb (Nat.eqb n 92).

Fixpoint selector_safe (k : string) : bool :=
  match k with
  | EmptyString => true
  | String a rest => selector_safe_char a && selector_safe rest
  end.

(** [$('div[data-id="' + k + '"]')]: the [div] elements of the document
    whose data-id attribute is [k].  The selector engine is
    not modelled: the function is the meaning of the selector for a
    [selector_safe] key.  With a double quote or a backslash in [k] the
    engine reads another selector, or rejects it with an error; the
    statements that go through this selection are made for safe keys. *)
Definition select_div_data_id (k : string) (d : document) : jq :=
  filter (λ r, div_with_data_id k d r) (in_document d).

(** The handler bound by [.click(function (e) { $(this).parent().fadeOut('slow') })],
    run for a click on [r].  Nothing runs when no handler is bound. *)
Definition click (r : ref) (d : document) : document :=
  match elems d !! r with
  | Some e =>
      if on_click e then
        match parent_of d r with
        | Some Body => Document (elems d) (body d) (Some (FadeOut Slow))
        | Some (Elem p) => fadeOut Slow [p] d
        | None => d
        end
      else d
  | None => d
  end.

End JQuery.

(** ** The class *)

Module SmartStatus.
Import Dom.
Export JQuery.

(** References to widget objects. *)
Abbreviation wid := nat (only parsing).

(** [this._dom_self]: four jQuery objects. *)
Record widget := Widget {
  wrapper : jq;
  spinner : jq;
  banner : jq;
  close_btn : jq
}.

(** Everything the class reads or writes: the document, the widget objects
    and [window._smart_statuses].  The latter is created as an array but
    only ever indexed by strings, so it is a finite map from keys to widget
    references.  (On a key the array inherits, such as ["length"], the
    lookup of the source sees the inherited value; no key built by
    [attach] is one of those: they start with ["smart-"] or are the
    page-level key.) *)
Record state := State {
  doc : document;
  widgets : list widget;
  registry : gmap string wid
}.

Definition initial : state := State empty_document [] ∅.

Definition on_doc (f : document → document) (s : state) : state :=
  State (f (doc s)) (widgets s) (registry s).

Definition set_registry (r : gmap string wid) (s : state) : state :=
  State (doc s) (widgets s) r.

Definition set_widget (w : wid) (this : widget) (s : state) : state :=
  State (doc s) (<[w := this]> (widgets s)) (registry s).

(** What [attach] and [find] return: a widget object or [false]. *)
Inductive value :=
| VWidget (w : wid)
| VFalse.

Definition truthy (v : value) : bool :=
  match v with
  | VWidget _ => true
  | VFalse => false
  end.

(** How a call ends: it returns, or a [TypeError] escapes it.  Both carry
    the state the call leaves behind.  A method is always called on a
    widget object; where the reference given names none, the model lets
    the call throw, as a call on [undefined] does. *)
Inductive completion (A : Type) :=
| Return (v : A) (s : state)
| Throw (s : state).
Arguments Return {A} v s.
Arguments Throw {A} s.

(** The elements a caller passes as target, as far as [attach] looks at
    them: the id attribute and two values of the computed style. *)
Record target_element := TargetElement {
  t_id : option string;
  t_left : string;
  t_bottom : string
}.

(** The [target] argument: left out, [document.body] itself, or a jQuery
    object (which is never identical to [document.body]). *)
Inductive target :=
| Omitted
| DocumentBody
| Target (els : list target_element).

(** A string argument that may be left out is truthy when it is given and
    not empty. *)
Definition nonempty (txt : option string) : bool :=
  match txt with
  | Some str => negb (bool_decide (str = ""))
  | None => false
  end.

(** ['smart-' + v] and [obj[v]] turn an undefined [v] into ["undefined"]. *)
Definition to_string (v : option string) : string :=
  default "undefined" v.

Definition global_key : string := "_global_smart_status_".

(** [SmartStatus.prototype.find], for the keys the library itself builds
    (the page-level key and ["smart-"] followed by an identifier) and any
    other key that an array does not carry by itself.  On a name such as
    ["length"] or ["constructor"] the source returns what the array
    holds there, which the embedding does not follow. *)
Definition find (id : string) (s : state) : value :=
  match registry s !! id with
  | Some w => VWidget w
  | None => VFalse
  end.

(** [get msg()] *)
Definition msg (w : wid) (s : state) : option string :=
  this ← widgets s !! w; html (banner this) (doc s).

(** [set msg(str)] *)
Definition set_msg (w : wid) (str : option string) (s : state) : state :=
  match widgets s !! w with
  | Some this => on_doc (set_html str (banner this)) s
  | None => s
  end.

(** [destroy()] *)
Definition destroy (w : wid) (s : state) : completion unit :=
  match widgets s !! w with
  | None => Throw s
  | Some this =>
      let s1 := on_doc (remove (wrapper this)) s in
      Return tt
        (set_registry
           (delete (to_string (attr_data_id (wrapper this) (doc s1))) (registry s1))
           s1)
  end.

(** [attach(target, overwrite)] *)
Definition attach (w : wid) (tgt : target) (overwrite : bool) (s : state)
  : completion value :=
  match widgets s !! w with
  | None => Throw s
  | Some this =>
      match tgt with
      | Target els =>
          let target_id := head els ≫= t_id in
          if decide (target_id = Some "") then
            match destroy w s with
            | Return _ s' => Return VFalse s'
            | Throw s' => Throw s'
            end
          else
            let use_id := "smart-" +:+ to_string target_id in
            if negb (truthy (find use_id s)) then
              match head els with
              | None => Throw s              (* getComputedStyle(undefined) *)
              | Some t0 =>
                  let s1 := on_doc (css (t_left t0) (t_bottom t0) (wrapper this)) s in
                  let s2 := on_doc (appendTo_body (wrapper this)) s1 in
                  let s3 := on_doc (set_attr_data_id use_id (wrapper this)) s2 in
                  Return (VWidget w) (set_registry (<[use_id := w]> (registry s3)) s3)
              end
            else if overwrite then
              let restore_msg := msg w s in
              let wr := select_div_data_id use_id (doc s) in
              let this' :=
                Widget wr
                       (JQuery.find_below "span" "fa-spinner" wr (doc s))
                       (JQuery.find_below "span" "smart-status-msg" wr (doc s))
                       (JQuery.find_below "span" "close" wr (doc s)) in
              let s1 := set_widget w this' s in
              let s2 := set_msg w restore_msg s1 in
              Return (VWidget w) (set_registry (<[use_id := w]> (registry s2)) s2)
            else
              Return VFalse s
      | _ =>
          if negb (truthy (find global_key s)) then
            let s1 := on_doc (set_attr_data_id global_key (wrapper this)) s in
            let s2 := on_doc (appendTo_body (wrapper this)) s1 in
            Return (VWidget w) (set_registry (<[global_key := w]> (registry s2)) s2)
          else
            Return VFalse s
      end
  end.

(** [reset()] *)
Definition reset (w : wid) (s : state) : completion value :=
  match widgets s !! w with
  | None => Throw s
  | Some this =>
      let s1 := set_msg w (Some "Loading...") s in
      Return (VWidget w)
             (on_doc (set_attr_class ["fa"; "fa-spinner"; "fa-spin"] (spinner this)) s1)
  end.

(** [show(txt)] *)
Definition show (w : wid) (txt : option string) (s : state) : completion value :=
  match widgets s !! w with
  | None => Throw s
  | Some this =>
      let s1 := if nonempty txt then set_msg w txt s else s in
      Return (VWidget w) (on_doc (fadeIn Slow (wrapper this)) s1)
  end.

(** [duration ? duration : 1500]: a left-out argument and the number 0 are
    falsy, a keyword and any other number are truthy. *)
Definition hide_duration (duration : option Dom.duration) : Dom.duration :=
  match duration with
  | Some (Ms n) => if decide (n = 0%Z) then Ms 1500 else Ms n
  | Some d => d
  | None => Ms 1500
  end.

(** [hide(duration)] *)
Definition hide (w : wid) (duration : option Dom.duration) (s : state)
  : completion value :=
  match widgets s !! w with
  | None => Throw s
  | Some this =>
      Return (VWidget w)
             (on_doc (fadeOut (hide_duration duration) (wrapper this)) s)
  end.

(** [final(txt, success)] *)
Definition final (w : wid) (txt : option string) (success : bool) (s : state)
  : completion value :=
  match widgets s !! w with
  | None => Throw s
  | Some this =>
      let s1 := on_doc (removeClass "fa-spin" (spinner this))
                       (on_doc (removeClass "fa-spinner" (spinner this)) s) in
      let s2 := on_doc (set_html txt (banner this)) s1 in
      let s3 := if success then on_doc (addClass "fa-check" (spinner this)) s2
                else on_doc (addClass "fa-exclamation-triangle" (spinner this)) s2 in
      Return (VWidget w) s3
  end.

(** [new SmartStatus(txt, target)]: the four elements are created and put
    together, then the optional message and target are applied.  The value
    of [attach] is dropped; an error it throws escapes the constructor.
    Only the close control gets a handler.  (Its attribute [data-dismiss]
    is read by no code of the library and is left out.) *)
Definition new (txt : option string) (tgt : target) (s : state) : completion wid :=
  let '(wr, d1) :=
    create (Element "div" ["smart-status"] (Some "smart-") "" [] None None None false)
           (doc s) in
  let '(sp, d2) :=
    create (Element "span" ["fa"; "fa-spinner"; "fa-spin"] None "" [] None None None false)
           d1 in
  let '(bn, d3) :=
    create (Element "span" ["smart-status-msg"] None "Loading..." [] None None None false)
           d2 in
  let '(cl, d4) :=
    create (Element "span" ["fa"; "fa-times"; "close"] None "" [] None None None true)
           d3 in
  let d5 := append_child wr cl (append_child wr bn (append_child wr sp d4)) in
  let w := length (widgets s) in
  let s1 := State d5 (widgets s ++ [Widget [wr] [sp] [bn] [cl]]) (registry s) in
  let s2 := if nonempty txt then set_msg w txt s1 else s1 in
  match tgt with
  | Omitted => Return w s2
  | _ =>
      match attach w tgt false s2 with
      | Return _ s3 => Return w s3
      | Throw s3 => Throw s3
      end
  end.

(** A click of the user on the element [r]. *)
Definition user_click (r : ref) (s : state) : state :=
  on_doc (click r) s.

(** *** What the widget shows

    The source keeps the phase of a widget nowhere but in the class
    attribute of its icon element.  The indicator is read back from there:
    it is a definite one only when exactly one of the three icon classes
    is present. *)
Inductive indicator :=
| Loading
| Success
| Failure.

Definition indicator_of (cs : list string) : option indicator :=
  match bool_decide ("fa-spinner" ∈ cs),
        bool_decide ("fa-check" ∈ cs),
        bool_decide ("fa-exclamation-triangle" ∈ cs) with
  | true, false, false => Some Loading
  | false, true, false => Some Success
  | false, false, true => Some Failure
  | _, _, _ => None
  end.

Definition shown_indicator (w : wid) (s : state) : option indicator :=
  this ← widgets s !! w;
  cs ← first classes (spinner this) (doc s);
  indicator_of cs.

(** The spinner styling: the two classes that [final] takes away. *)
Definition spinning (cs : list string) : bool :=
  bool_decide ("fa-spinner" ∈ cs ∨ "fa-spin" ∈ cs).

(** The state a call leaves behind, however it ends. *)
Definition after {A} (c : completion A) : state :=
  match c with
  | Return _ s => s
  | Throw s => s
  end.

End SmartStatus.

(** ** Concrete pages used to exercise the theorems *)

Module Scenario.
Import Dom SmartStatus.

Definition btn1 : target := Target [TargetElement (Some "btn1") "10px" "40px"].
Definition btn2 : target := Target [TargetElement (Some "btn2") "10px" "90px"].
Definition no_id_a : target := Target [TargetElement None "0px" "16px"].
Definition no_id_b : target := Target [TargetElement None "50px" "16px"].

(** [A = new SmartStatus('Uploading', $('#btn1'))]: widget 0 on elements 0-3. *)
Definition page_A : state := after (new (Some "Uploading") btn1 initial).

(** [B = new SmartStatus('Retrying')]: widget 1 on elements 4-7, detached. *)
Definition page_A_B : state := after (new (Some "Retrying") Omitted page_A).

(** [A.attach($('#btn2'))]: A moves on, the entry for btn1 stays behind. *)
Definition page_A_moved : state := after (attach 0 btn2 false page_A).
Definition page_A_moved_B : state := after (new (Some "Retrying") Omitted page_A_moved).

(** A single detached widget. *)
Definition page_detached : state := after (new None Omitted initial).

(** [A.destroy(); A.attach($('#btn1'))] *)
Definition page_A_reattached : state :=
  after (attach 0 btn1 false (after (destroy 0 page_A))).

(** [A.final('Upload failed', false)] *)
Definition page_A_failed : state := after (final 0 (Some "Upload failed") false page_A).

(** [G = new SmartStatus('Saving', document.body); H = new SmartStatus()]:
    widget 0 holds the page-level key, widget 1 is detached. *)
Definition page_G_H : state :=
  after (new None Omitted (after (new (Some "Saving") DocumentBody initial))).

(** [N = new SmartStatus(null, $('button')); M = new SmartStatus()], the
    button having no id attribute: widget 0 is attached to it, widget 1 is
    detached. *)
Definition page_N_M : state :=
  after (new None Omitted (after (new None no_id_a initial))).

End Scenario.

(** ** Runs of the library, and the shape they keep *)

Module Run.
Import Dom SmartStatus.

(** What a script, or the user, can do with the library. *)
Inductive call :=
| CallNew (txt : option string) (tgt : target)
| CallAttach (w : wid) (tgt : target) (overwrite : bool)
| CallDestroy (w : wid)
| CallReset (w : wid)
| CallShow (w : wid) (txt : option string)
| CallHide (w : wid) (duration : option Dom.duration)
| CallFinal (w : wid) (txt : option string) (success : bool)
| CallSetMsg (w : wid) (str : option string)
| Click (r : ref).

Definition run (c : call) (s : state) : state :=
  match c with
  | CallNew txt tgt => after (new txt tgt s)
  | CallAttach w tgt overwrite => after (attach w tgt overwrite s)
  | CallDestroy w => after (destroy w s)
  | CallReset w => after (reset w s)
  | CallShow w txt => after (show w txt s)
  | CallHide w duration => after (hide w duration s)
  | CallFinal w txt success => after (final w txt success s)
  | CallSetMsg w str => set_msg w str s
  | Click r => user_click r s
  end.

(** The states a page can be in: it starts with an empty registry and
    none of the library's elements, and every later state comes from a
    call or a click.  The elements of the page itself are not in the
    store: the library reaches them only as targets, and the page is taken
    to have no [div] of its own with a data-id attribute.  The calls take
    any text and any identifier; the states that come from plain text and
    safe identifiers only are [plain_reachable] below. *)
Inductive reachable : state → Prop :=
| reachable_initial : reachable initial
| reachable_run (s : state) (c : call) : reachable s → reachable (run c s).

(** The four elements the constructor creates, put together, when the
    store had [n] elements before. *)
Definition fresh_block (n : nat) : list element :=
  [ Element "div" ["smart-status"] (Some "smart-") "" [n + 1; n + 2; n + 3]
            None None None false;
    Element "span" ["fa"; "fa-spinner"; "fa-spin"] None "" [] None None None false;
    Element "span" ["smart-status-msg"] None "Loading..." [] None None None false;
    Element "span" ["fa"; "fa-times"; "close"] None "" [] None None None true ].

(** The state right after the constructor has built the widget, before
    it looks at its arguments. *)
Definition constructed (s : state) : state :=
  let n := length (elems (doc s)) in
  State (Document (elems (doc s) ++ fresh_block n) (body (doc s)) (body_fx (doc s)))
        (widgets s ++ [Widget [n] [n + 1] [n + 2] [n + 3]])
        (registry s).

(** The store gets its elements from the constructor, four at a time:
    container, icon, banner, close control.  So the reference of an
    element tells its part, and the parts keep their tag, their children
    and, except for the icon, their classes. *)
Definition shaped (r : ref) (e : element) : Prop :=
  (r mod 4 = 0 → tag e = "div" ∧ children e = [r + 1; r + 2; r + 3])
  ∧ (r mod 4 = 1 → tag e = "span" ∧ children e = []
                   ∧ ("smart-status-msg" ∉ classes e) ∧ ("close" ∉ classes e))
  ∧ (r mod 4 = 2 → tag e = "span" ∧ children e = []
                   ∧ classes e = ["smart-status-msg"])
  ∧ (r mod 4 = 3 → tag e = "span" ∧ children e = []
                   ∧ classes e = ["fa"; "fa-times"; "close"]).

(** The members of [q] are elements of the store with part [k]. *)
Definition refs_in (q : jq) (k : nat) (d : document) : Prop :=
  ∀ r, r ∈ q → r mod 4 = k ∧ r < length (elems d).

Definition wf_document (d : document) : Prop :=
  length (elems d) mod 4 = 0
  ∧ (∀ r e, elems d !! r = Some e → shaped r e)
  ∧ refs_in (body d) 0 d.

(** The four references of a widget name parts of the right kind, and a
    close control it names sits in a container it names. *)
Definition wf_widget (d : document) (this : widget) : Prop :=
  refs_in (wrapper this) 0 d
  ∧ refs_in (spinner this) 1 d
  ∧ refs_in (banner this) 2 d
  ∧ refs_in (close_btn this) 3 d
  ∧ (∀ c, c ∈ close_btn this → c - 3 ∈ wrapper this).

Definition wf (s : state) : Prop :=
  wf_document (doc s)
  ∧ (∀ w this, widgets s !! w = Some this → wf_widget (doc s) this).

(** The registry names widget objects only, under the page-level key or
    under ["smart-"] followed by a non-empty identifier. *)
Definition wf_registry (s : state) : Prop :=
  ∀ k w, registry s !! k = Some w →
         w < length (widgets s)
         ∧ (k = global_key ∨ ∃ id, id ≠ "" ∧ k = "smart-" +:+ id).

(** No handler is bound on [r] or on anything below it. *)
Definition handler_free (d : document) (r : ref) : Prop :=
  ∀ x e, x ∈ subtree (length (elems d)) (elems d) r →
         elems d !! x = Some e → on_click e = false.

(** A text argument that is left out or [plain]. *)
Definition plain_text (txt : option string) : bool :=
  from_option plain true txt.

(** The key that [attach] builds for the target is [selector_safe]. *)
Definition safe_target (tgt : target) : bool :=
  match tgt with
  | Target els => selector_safe (to_string (head els ≫= t_id))
  | _ => true
  end.

(** The calls on which the embedding follows the browser step by step:
    every text is plain and every target identifier is safe. *)
Definition plain_call (c : call) : bool :=
  match c with
  | CallNew txt tgt => plain_text txt && safe_target tgt
  | CallAttach _ tgt _ => safe_target tgt
  | CallShow _ txt | CallFinal _ txt _ | CallSetMsg _ txt => plain_text txt
  | CallDestroy _ | CallReset _ | CallHide _ _ | Click _ => true
  end.

(** The states of a page on which the library was only ever given plain
    text and safe identifiers (the page having no [div] of its own with a
    data-id attribute).  On these the store holds every element the
    library can reach, what html() gives back is what was written, and
    the selection by key is the browser's. *)
Inductive plain_reachable : state → Prop :=
| plain_reachable_initial : plain_reachable initial
| plain_reachable_run (s : state) (c : call) :
    plain_reachable s → plain_call c = true → plain_reachable (run c s).


(** The calls that only change what a widget displays. *)
Definition display_call (c : call) : bool :=
  match c with
  | CallReset _ | CallShow _ _ | CallHide _ _ | CallFinal _ _ _
  | CallSetMsg _ _ | Click _ => true
  | CallNew _ _ | CallAttach _ _ _ | CallDestroy _ => false
  end.

End Run.

(** ** Facts about the document and the jQuery calls *)

Module DomFacts.
Import Dom JQuery.

Section Each.
Context (f : element → element).

Lemma foldl_alter_length (q : jq) (h : list element) :
  length (foldl (λ h r, alter f r h) h q) = length h.
Proof.
  revert h. induction q as [|r q IH]; intros h; simpl; [done|].
  by rewrite IH, length_alter.
Qed.

Lemma foldl_alter_notin (q : jq) (h : list element) (r : ref) :
  r ∉ q → foldl (λ h r, alter f r h) h q !! r = h !! r.
Proof.
  revert h. induction q as [|x q IH]; intros h Hr; simpl; [done|].
  apply not_elem_of_cons in Hr as [Hx Hq].
  rewrite IH by done. by apply list_lookup_alter_ne.
Qed.

(** A field the function leaves alone is left alone by the iteration. *)
Lemma foldl_alter_keeps {A} (g : element → A) (q : jq) (h : list element) (r : ref) :
  (∀ e, g (f e) = g e) →
  g <$> foldl (λ h r, alter f r h) h q !! r = g <$> h !! r.
Proof.
  intros Hg. revert h. induction q as [|x q IH]; intros h; simpl; [done|].
  rewrite IH. destruct (decide (x = r)) as [->|Hne].
  - rewrite list_lookup_alter_eq. destruct (h !! r); simpl; [by f_equal|done].
  - by rewrite list_lookup_alter_ne.
Qed.

(** A field the function sets to [v] reads [v] on every member. *)
Lemma foldl_alter_sets {A} (g : element → A) (v : A) (q : jq) (h : list element) (r : ref) :
  (∀ e, g (f e) = v) → r ∈ q → is_Some (h !! r) →
  g <$> foldl (λ h r, alter f r h) h q !! r = Some v.
Proof.
  intros Hg. revert h. induction q as [|x q IH]; intros h Hr [e He].
  - by apply elem_of_nil in Hr.
  - simpl. destruct (decide (r ∈ q)) as [Hq|Hq].
    + apply IH; [done|]. destruct (decide (x = r)) as [->|Hne].
      * rewrite list_lookup_alter_eq, He. by eexists.
      * rewrite list_lookup_alter_ne by done. by eexists.
    + apply elem_of_cons in Hr as [->|]; [|done].
      rewrite foldl_alter_notin by done.
      rewrite list_lookup_alter_eq, He. simpl. by f_equal.
Qed.

Lemma each_length q d : length (elems (each f q d)) = length (elems d).
Proof. apply foldl_alter_length. Qed.

Lemma each_body q d : body (each f q d) = body d.
Proof. done. Qed.

Lemma each_keeps {A} (g : element → A) q d r :
  (∀ e, g (f e) = g e) → g <$> elems (each f q d) !! r = g <$> elems d !! r.
Proof. apply foldl_alter_keeps. Qed.

Lemma each_sets {A} (g : element → A) v q d r :
  (∀ e, g (f e) = v) → r ∈ q → is_Some (elems d !! r) →
  g <$> elems (each f q d) !! r = Some v.
Proof. apply foldl_alter_sets. Qed.

Lemma each_notin q d r : r ∉ q → elems (each f q d) !! r = elems d !! r.
Proof. apply foldl_alter_notin. Qed.

End Each.

(** The getters depend on one field of the first member only. *)
Lemma first_ext {A} (g : element → A) (q : jq) (d d' : document) :
  (∀ r, g <$> elems d' !! r = g <$> elems d !! r) →
  first g q d' = first g q d.
Proof. intros H. unfold first. destruct (head q); simpl; [apply H|done]. Qed.

Lemma html_ext q d d' :
  (∀ r, inner <$> elems d' !! r = inner <$> elems d !! r) →
  html q d' = html q d.
Proof. apply first_ext. Qed.

Lemma attr_data_id_ext q d d' :
  (∀ r, data_id <$> elems d' !! r = data_id <$> elems d !! r) →
  attr_data_id q d' = attr_data_id q d.
Proof. intros H. unfold attr_data_id. by rewrite (first_ext _ _ _ _ H). Qed.

(** The walk below an element only looks at child lists. *)
Lemma subtree_ext (h h' : list element) n r :
  (∀ x, children <$> h' !! x = children <$> h !! x) →
  subtree n h' r = subtree n h r.
Proof.
  intros H. revert r. induction n as [|n IH]; intros r; simpl; [done|].
  specialize (H r).
  destruct (h' !! r) as [e'|], (h !! r) as [e|]; simplify_eq/=; [|done].
  f_equal. rewrite H. by apply list_bind_ext.
Qed.

Lemma in_document_ext (d d' : document) :
  length (elems d') = length (elems d) → body d' = body d →
  (∀ x, children <$> elems d' !! x = children <$> elems d !! x) →
  in_document d' = in_document d.
Proof.
  intros Hl Hb H. unfold in_document. rewrite Hl, Hb.
  apply list_bind_ext; [|done]. intros r. by apply subtree_ext.
Qed.

(** Whatever the walk reaches below its starting point is named by some
    child list. *)
Lemma subtree_elem_of (h : list element) n r x :
  x ∈ subtree n h r → x = r ∨ ∃ e, e ∈ h ∧ x ∈ children e.
Proof.
  revert r. induction n as [|n IH]; intros r; simpl.
  - intros Hx. by apply elem_of_nil in Hx.
  - destruct (h !! r) as [e|] eqn:He; [|intros Hx; by apply elem_of_nil in Hx].
    intros [->|Hx]%elem_of_cons; [by left|].
    apply list_elem_of_bind in Hx as (c & Hx & Hc).
    apply IH in Hx as [->|?]; [|by right].
    right. exists e. split; [|done]. by eapply list_elem_of_lookup_2.
Qed.

Lemma unlinked_not_in_document r d : unlinked r d → r ∉ in_document d.
Proof.
  intros [Hb Hc] Hin. unfold in_document in Hin.
  apply list_elem_of_bind in Hin as (c & Hx & Hcb).
  apply subtree_elem_of in Hx as [->|(e & He & Hx)]; [done|].
  by apply (Hc e).
Qed.

Lemma drop_ref_notin r l : r ∉ drop_ref r l.
Proof. unfold drop_ref. rewrite list_elem_of_filter. intros [Hne _]. by apply Hne. Qed.

Lemma drop_ref_keeps_notin r x l : x ∉ l → x ∉ drop_ref r l.
Proof. unfold drop_ref. rewrite list_elem_of_filter. intros Hx [_ Hin]. by apply Hx. Qed.

Lemma detach_unlinks r d : unlinked r (detach r d).
Proof.
  split; simpl; [apply drop_ref_notin|].
  intros e (e0 & -> & _)%list_elem_of_fmap. simpl. apply drop_ref_notin.
Qed.

Lemma detach_keeps_unlinked r x d : unlinked x d → unlinked x (detach r d).
Proof.
  intros [Hb Hc]. split; simpl; [by apply drop_ref_keeps_notin|].
  intros e (e0 & -> & He0)%list_elem_of_fmap. simpl.
  apply drop_ref_keeps_notin. by apply Hc.
Qed.

Lemma detach_keeps {A} (g : element → A) r d x :
  (∀ c e, g (with_children c e) = g e) →
  g <$> elems (detach r d) !! x = g <$> elems d !! x.
Proof.
  intros Hg. simpl. rewrite list_lookup_fmap.
  destruct (elems d !! x); simpl; [by f_equal|done].
Qed.

Lemma each_keeps_unlinked f q x d :
  (∀ e, children (f e) = children e) → unlinked x d → unlinked x (each f q d).
Proof.
  intros Hf [Hb Hc]. split; [done|].
  intros e (i & Hi)%list_elem_of_lookup_1.
  pose proof (each_keeps f children q d i Hf) as Hk. rewrite Hi in Hk.
  destruct (elems d !! i) as [e0|] eqn:He0; [|done].
  injection Hk as ->. apply Hc. by eapply list_elem_of_lookup_2.
Qed.

Lemma content_field {A} (g : element → A) (d d' : document) (r : ref) :
  (∀ e e', content e' = content e → g e' = g e) →
  content <$> elems d' !! r = content <$> elems d !! r →
  g <$> elems d' !! r = g <$> elems d !! r.
Proof.
  intros Hg H. destruct (elems d' !! r) as [e'|], (elems d !! r) as [e|];
    simpl in *; try done.
  f_equal. apply Hg. congruence.
Qed.

Lemma same_but_fx_refl d : same_but_fx d d.
Proof. by repeat split. Qed.

Lemma same_but_fx_in_document d d' : same_but_fx d d' → in_document d' = in_document d.
Proof.
  intros (Hl & Hb & Hc). apply in_document_ext; [done|done|].
  intros x. apply content_field; [|done].
  unfold content. intros e e' He. by simplify_eq.
Qed.

Lemma same_but_fx_first {A} (g : element → A) q d d' :
  (∀ e e', content e' = content e → g e' = g e) →
  same_but_fx d d' → first g q d' = first g q d.
Proof.
  intros Hg (_ & _ & Hc). apply first_ext. intros r. by apply content_field.
Qed.

(** A fade leaves the content alone. *)
Lemma fade_same_but_fx f q d : same_but_fx d (each (with_fx f) q d).
Proof.
  split; [apply each_length|]. split; [done|].
  intros r. by apply each_keeps.
Qed.

Lemma click_same_but_fx r d : same_but_fx d (click r d).
Proof.
  unfold click. destruct (elems d !! r) as [e|]; [|apply same_but_fx_refl].
  destruct (on_click e); [|apply same_but_fx_refl].
  destruct (parent_of d r) as [[|p]|]; [by repeat split| |apply same_but_fx_refl].
  apply fade_same_but_fx.
Qed.

(** [remove] changes child lists and handlers, nothing else. *)
Lemma remove_keeps {A} (g : element → A) q d x :
  (∀ c e, g (with_children c e) = g e) →
  (∀ e, g (without_handlers e) = g e) →
  g <$> elems (remove q d) !! x = g <$> elems d !! x.
Proof.
  intros Hc Hh. revert d. induction q as [|r q IH]; intros d; [done|].
  unfold remove in *. simpl. rewrite IH.
  rewrite detach_keeps by done. by apply each_keeps.
Qed.

Lemma remove_keeps_unlinked q x d : unlinked x d → unlinked x (remove q d).
Proof.
  revert d. induction q as [|r q IH]; intros d Hx; [done|].
  unfold remove in *. simpl. apply IH.
  apply detach_keeps_unlinked. by apply each_keeps_unlinked.
Qed.

(** After [q.remove()] no member of [q] is in the document. *)
Lemma remove_unlinks q r d : r ∈ q → unlinked r (remove q d).
Proof.
  revert d. induction q as [|x q IH]; intros d Hr.
  - by apply elem_of_nil in Hr.
  - destruct (decide (r ∈ q)) as [Hq|Hq].
    + unfold remove in *. simpl. by apply IH.
    + apply elem_of_cons in Hr as [->|]; [|done].
      unfold remove. simpl. apply (remove_keeps_unlinked q).
      apply detach_unlinks.
Qed.

Lemma remove_not_in_document q r d : r ∈ q → r ∉ in_document (remove q d).
Proof. intros Hr. by apply unlinked_not_in_document, remove_unlinks. Qed.

Lemma remove_attr_data_id q q' d : attr_data_id q' (remove q d) = attr_data_id q' d.
Proof. apply attr_data_id_ext. intros r. by apply remove_keeps. Qed.

(** What [find] and the selector return exists and matches. *)
Lemma matches_spec t c d r :
  matches t c d r → ∃ e, elems d !! r = Some e ∧ tag e = t ∧ c ∈ classes e.
Proof.
  unfold matches. destruct (elems d !! r) as [e|]; [|done].
  intros [? ?]%bool_decide_unpack. by exists e.
Qed.


Lemma select_div_data_id_spec k d r :
  r ∈ select_div_data_id k d →
  r ∈ in_document d ∧ ∃ e, elems d !! r = Some e ∧ tag e = "div" ∧ data_id e = Some k.
Proof.
  unfold select_div_data_id. intros [Hm Hin]%list_elem_of_filter.
  split; [done|]. unfold div_with_data_id in Hm.
  destruct (elems d !! r) as [e|]; [|done].
  apply bool_decide_unpack in Hm as [? ?]. by exists e.
Qed.

End DomFacts.

(** ** The shape is kept by every call *)

Module Invariant.
Import Dom JQuery SmartStatus Run DomFacts.

#[local] Ltac Zify.zify_post_hook ::= Z.div_mod_to_equations.

(** Prove [shaped r e] for an [r] whose part is known: the three other
    parts are ruled out by arithmetic. *)
Ltac shaped_by_part :=
  unfold shaped; repeat apply conj; intros ?;
  first [ exfalso; lia | simpl; repeat split; done ].

Lemma refs_in_grow q k d d' :
  (length (elems d) ≤ length (elems d'))%nat → refs_in q k d → refs_in q k d'.
Proof. intros Hl Hq r Hr. destruct (Hq r Hr). split; [done|lia]. Qed.

Lemma wf_widget_grow d d' this :
  (length (elems d) ≤ length (elems d'))%nat → wf_widget d this → wf_widget d' this.
Proof.
  intros Hl (H0 & H1 & H2 & H3 & Hc).
  do 4 (split; [by eapply refs_in_grow|]). done.
Qed.

(** A property of the elements that the function keeps on the members of
    [q] is kept by the iteration. *)
Lemma foldl_alter_invariant (P : ref → element → Prop) (f : element → element)
    (q : list ref) (h : list element) :
  (∀ r e, r ∈ q → P r e → P r (f e)) →
  (∀ r e, h !! r = Some e → P r e) →
  ∀ r e, foldl (λ h r, alter f r h) h q !! r = Some e → P r e.
Proof.
  revert h. induction q as [|x q IH]; intros h Hf Hh; [done|].
  simpl. apply IH.
  - intros r e Hr. apply Hf. by right.
  - intros r e. destruct (decide (x = r)) as [->|Hne].
    + rewrite list_lookup_alter_eq. destruct (h !! r) as [e0|] eqn:He0; [|done].
      intros [= <-]. apply Hf; [by left|by apply Hh].
    + rewrite list_lookup_alter_ne by done. apply Hh.
Qed.

Lemma each_wf_document f q d :
  (∀ r e, r ∈ q → shaped r e → shaped r (f e)) →
  wf_document d → wf_document (each f q d).
Proof.
  intros Hf (Hl & Hs & Hb). split; [by rewrite each_length|]. split.
  - by apply foldl_alter_invariant.
  - eapply refs_in_grow; [|done]. by rewrite each_length.
Qed.

(** The ways an element is changed that keep its shape. *)
Lemma shaped_keep r e e' :
  tag e' = tag e → children e' = children e → classes e' = classes e →
  shaped r e → shaped r e'.
Proof. unfold shaped. intros -> -> ->. done. Qed.

Lemma shaped_with_inner r v e : r mod 4 = 2 → shaped r e → shaped r (with_inner v e).
Proof.
  intros Hr (_ & _ & H2 & _). destruct (H2 Hr) as (? & ? & ?).
  shaped_by_part.
Qed.

Lemma shaped_icon_classes r cs e :
  r mod 4 = 1 → "smart-status-msg" ∉ cs → "close" ∉ cs →
  shaped r e → shaped r (with_classes cs e).
Proof.
  intros Hr ? ? (_ & H1 & _). destruct (H1 Hr) as (? & ? & _).
  shaped_by_part.
Qed.

Lemma each_keep_wf_document f q d :
  (∀ e, tag (f e) = tag e ∧ children (f e) = children e ∧ classes (f e) = classes e) →
  wf_document d → wf_document (each f q d).
Proof.
  intros Hf. apply each_wf_document. intros r e _.
  destruct (Hf e) as (? & ? & ?). by apply shaped_keep.
Qed.

Lemma set_html_wf_document v q d :
  refs_in q 2 d → wf_document d → wf_document (set_html v q d).
Proof.
  intros Hq Hd. destruct v as [str|]; [|done]. simpl.
  apply each_wf_document; [|done].
  intros r e Hr. apply shaped_with_inner. by destruct (Hq r Hr).
Qed.

Lemma set_html_length v q d : length (elems (set_html v q d)) = length (elems d).
Proof. destruct v; [apply each_length|done]. Qed.

(** Classes change on icons only, and never to one of the two classes
    that tell a banner or a close control. *)
Lemma icon_classes_wf_document (g : list string → list string) q d :
  (∀ cs, "smart-status-msg" ∉ cs → "close" ∉ cs →
         ("smart-status-msg" ∉ g cs) ∧ ("close" ∉ g cs)) →
  refs_in q 1 d → wf_document d →
  wf_document (each (λ e, with_classes (g (classes e)) e) q d).
Proof.
  intros Hg Hq. apply each_wf_document. intros r e Hr Hs.
  destruct (Hq r Hr) as [Hk _].
  destruct Hs as (H0 & H1 & H2 & H3). destruct (H1 Hk) as (? & ? & ? & ?).
  destruct (Hg (classes e)) as [? ?]; [done|done|].
  apply shaped_icon_classes; try done.
Qed.

Lemma removeClass_wf_document c q d :
  refs_in q 1 d → wf_document d → wf_document (removeClass c q d).
Proof.
  apply (icon_classes_wf_document (filter (λ x, x ≠ c))).
  intros cs ? ?. rewrite !list_elem_of_filter. by split; intros [_ ?].
Qed.

Lemma addClass_wf_document c q d :
  c ≠ "smart-status-msg" → c ≠ "close" →
  refs_in q 1 d → wf_document d → wf_document (addClass c q d).
Proof.
  intros Hc1 Hc2 Hq. apply each_wf_document. intros r e Hr Hs.
  destruct (decide (c ∈ classes e)); [done|].
  destruct (Hq r Hr) as [Hk _].
  destruct Hs as (H0 & H1 & H2 & H3). destruct (H1 Hk) as (? & ? & ? & ?).
  apply shaped_icon_classes; try done;
    rewrite elem_of_app, list_elem_of_singleton; by intros [?|?].
Qed.

Lemma set_attr_class_wf_document cs q d :
  "smart-status-msg" ∉ cs → "close" ∉ cs →
  refs_in q 1 d → wf_document d → wf_document (set_attr_class cs q d).
Proof.
  intros ? ?. apply (icon_classes_wf_document (λ _, cs)). by intros.
Qed.

(** Taking a container out of whatever holds it changes no child list:
    a container is nobody's child. *)
Lemma drop_ref_id r (l : list ref) : r ∉ l → drop_ref r l = l.
Proof.
  unfold drop_ref. induction l as [|x l IH]; intros Hr; [done|].
  apply not_elem_of_cons in Hr as [Hx Hl].
  rewrite filter_cons_True by done. by rewrite IH.
Qed.

Lemma shaped_children_no_container r' e r :
  r mod 4 = 0 → shaped r' e → r ∉ children e.
Proof.
  intros Hr (H0 & H1 & H2 & H3) Hin.
  assert (Hk : r' mod 4 = 0 ∨ r' mod 4 = 1 ∨ r' mod 4 = 2 ∨ r' mod 4 = 3) by lia.
  destruct Hk as [Hk|[Hk|[Hk|Hk]]].
  - destruct (H0 Hk) as [_ Hc]. rewrite Hc in Hin.
    repeat (apply elem_of_cons in Hin as [Hin|Hin]; [lia|]).
    by apply elem_of_nil in Hin.
  - destruct (H1 Hk) as (_ & Hc & _). rewrite Hc in Hin. by apply elem_of_nil in Hin.
  - destruct (H2 Hk) as (_ & Hc & _). rewrite Hc in Hin. by apply elem_of_nil in Hin.
  - destruct (H3 Hk) as (_ & Hc & _). rewrite Hc in Hin. by apply elem_of_nil in Hin.
Qed.

Lemma detach_length r d : length (elems (detach r d)) = length (elems d).
Proof. simpl. by rewrite length_fmap. Qed.

Lemma detach_wf_document r d :
  r mod 4 = 0 → wf_document d → wf_document (detach r d).
Proof.
  intros Hr (Hl & Hs & Hb). split; [by rewrite detach_length|]. split.
  - intros r' e'. simpl. rewrite list_lookup_fmap.
    destruct (elems d !! r') as [e|] eqn:He; [|done]. intros [= <-].
    apply (shaped_keep _ e); try done; [|by apply Hs].
    simpl. apply drop_ref_id. eapply shaped_children_no_container; [done|].
    by apply Hs.
  - intros x Hx. unfold drop_ref in Hx. simpl in Hx.
    apply list_elem_of_filter in Hx as [_ Hx].
    destruct (Hb x Hx). split; [done|]. by rewrite detach_length.
Qed.

Lemma append_to_body_length r d :
  length (elems (append_to_body r d)) = length (elems d).
Proof. unfold append_to_body. simpl. by rewrite length_fmap. Qed.

Lemma append_to_body_wf_document r d :
  r mod 4 = 0 → r < length (elems d) →
  wf_document d → wf_document (append_to_body r d).
Proof.
  intros Hr Hlt Hd. destruct (detach_wf_document r d Hr Hd) as (Hl & Hs & Hb).
  split; [done|]. split; [done|].
  intros x [Hx|Hx]%elem_of_app.
  - by apply Hb.
  - apply list_elem_of_singleton in Hx as ->. split; [done|].
    by rewrite append_to_body_length.
Qed.

Lemma appendTo_body_length q d :
  length (elems (appendTo_body q d)) = length (elems d).
Proof.
  revert d. induction q as [|r q IH]; intros d; [done|].
  unfold appendTo_body in *. simpl. by rewrite IH, append_to_body_length.
Qed.

Lemma appendTo_body_wf_document q d :
  refs_in q 0 d → wf_document d → wf_document (appendTo_body q d).
Proof.
  revert d. induction q as [|r q IH]; intros d Hq Hd; [done|].
  unfold appendTo_body in *. simpl. apply IH.
  - intros x Hx. destruct (Hq x) as [? ?]; [by right|].
    split; [done|]. by rewrite append_to_body_length.
  - destruct (Hq r) as [? ?]; [by left|]. by apply append_to_body_wf_document.
Qed.

Lemma remove_length q d : length (elems (remove q d)) = length (elems d).
Proof.
  revert d. induction q as [|r q IH]; intros d; [done|].
  unfold remove in *. simpl. rewrite IH, detach_length. apply each_length.
Qed.

Lemma remove_wf_document q d :
  refs_in q 0 d → wf_document d → wf_document (remove q d).
Proof.
  revert d. induction q as [|r q IH]; intros d Hq Hd; [done|].
  unfold remove in *. simpl. apply IH.
  - intros x Hx. destruct (Hq x) as [? ?]; [by right|].
    split; [done|]. rewrite detach_length. unfold cleanData. by rewrite each_length.
  - destruct (Hq r) as [? ?]; [by left|]. apply detach_wf_document; [done|].
    by apply each_keep_wf_document.
Qed.

(** What lies below a container: its icon, banner and close control. *)
Lemma subtree_leaf (h : list element) n x e :
  h !! x = Some e → children e = [] → subtree (S n) h x = [x].
Proof. intros He Hc. simpl. by rewrite He, Hc. Qed.

Lemma part_in_store d p j :
  wf_document d → p mod 4 = 0 → p < length (elems d) → j < 4 →
  ∃ e, elems d !! (p + j) = Some e ∧ shaped (p + j) e.
Proof.
  intros (Hl & Hs & _) Hp Hlt Hj.
  destruct (lookup_lt_is_Some_2 (elems d) (p + j)) as [e He]; [lia|].
  exists e. split; [done|by apply Hs].
Qed.

Lemma leaf_children p j e :
  p mod 4 = 0 → 0 < j < 4 → shaped (p + j) e → children e = [].
Proof.
  intros Hp Hj (H0 & H1 & H2 & H3).
  assert (Hk : j = 1 ∨ j = 2 ∨ j = 3) by lia.
  destruct Hk as [-> | [-> | ->]].
  - destruct H1 as (_ & ? & _); [lia|done].
  - destruct H2 as (_ & ? & _); [lia|done].
  - destruct H3 as (_ & ? & _); [lia|done].
Qed.

Lemma descendants_container d p :
  wf_document d → p mod 4 = 0 → p < length (elems d) →
  descendants d p = [p + 1; p + 2; p + 3].
Proof.
  intros Hd Hp Hlt.
  destruct (part_in_store d p 0 Hd Hp Hlt) as (e & He & Hs); [lia|].
  rewrite Nat.add_0_r in He, Hs. unfold descendants. rewrite He.
  destruct Hs as ((_ & ->) & _); [done|].
  destruct (length (elems d)) as [|n] eqn:Hn; [lia|]. rewrite <- Hn in Hlt.
  destruct (part_in_store d p 1 Hd Hp Hlt) as (e1 & He1 & Hs1); [lia|].
  destruct (part_in_store d p 2 Hd Hp Hlt) as (e2 & He2 & Hs2); [lia|].
  destruct (part_in_store d p 3 Hd Hp Hlt) as (e3 & He3 & Hs3); [lia|].
  rewrite !bind_cons.
  rewrite (subtree_leaf _ _ _ e1 He1), (subtree_leaf _ _ _ e2 He2),
          (subtree_leaf _ _ _ e3 He3); [done| | |];
    by eapply (leaf_children p); [| |done]; [done|lia].
Qed.

(** [q.find(...)] on containers looks at their three parts. *)
Lemma find_in_containers t c q d x :
  wf_document d → refs_in q 0 d →
  x ∈ JQuery.find_below t c q d ↔
  ∃ p, p ∈ q ∧ (x = p + 1 ∨ x = p + 2 ∨ x = p + 3) ∧ matches t c d x.
Proof.
  intros Hd Hq. unfold find_below. rewrite elem_of_remove_dups, list_elem_of_bind.
  split.
  - intros (p & Hx & Hp). destruct (Hq p Hp) as [Hk Hlt].
    rewrite descendants_container in Hx by done.
    apply list_elem_of_filter in Hx as [Hm Hx]. exists p. split; [done|].
    split; [|done].
    repeat (apply elem_of_cons in Hx as [Hx|Hx]; [by auto|]).
    by apply elem_of_nil in Hx.
  - intros (p & Hp & Hx & Hm). exists p. split; [|done].
    destruct (Hq p Hp) as [Hk Hlt]. rewrite descendants_container by done.
    apply list_elem_of_filter. split; [done|].
    destruct Hx as [-> | [-> | ->]]; repeat constructor.
Qed.

Lemma matches_class t c d x e :
  matches t c d x → elems d !! x = Some e → tag e = t ∧ c ∈ classes e.
Proof.
  unfold matches. intros Hm He. rewrite He in Hm. by apply bool_decide_unpack in Hm.
Qed.

Lemma find_icons q d :
  wf_document d → refs_in q 0 d → refs_in (JQuery.find_below "span" "fa-spinner" q d) 1 d.
Proof.
  intros Hd Hq x (p & Hp & Hx & Hm)%find_in_containers; [|done|done].
  destruct (Hq p Hp) as [Hk Hlt].
  destruct Hd as (Hl & Hs & Hb).
  destruct (matches_spec _ _ _ _ Hm) as (e & He & _ & Hc).
  pose proof (Hs x e He) as (_ & _ & H2 & H3).
  destruct Hx as [-> | [-> | ->]].
  - split; lia.
  - destruct H2 as (_ & _ & Hcl); [lia|]. rewrite Hcl in Hc.
    by apply list_elem_of_singleton in Hc.
  - destruct H3 as (_ & _ & Hcl); [lia|]. rewrite Hcl in Hc.
    repeat (apply elem_of_cons in Hc as [Hc|Hc]; [done|]).
    by apply elem_of_nil in Hc.
Qed.

Lemma find_banners q d x :
  wf_document d → refs_in q 0 d →
  x ∈ JQuery.find_below "span" "smart-status-msg" q d ↔ ∃ p, p ∈ q ∧ x = p + 2.
Proof.
  intros Hd Hq. rewrite find_in_containers by done. split.
  - intros (p & Hp & Hx & Hm). exists p. split; [done|].
    destruct (Hq p Hp) as [Hk Hlt]. destruct Hd as (Hl & Hs & Hb).
    destruct (matches_spec _ _ _ _ Hm) as (e & He & _ & Hc).
    pose proof (Hs x e He) as (_ & H1 & _ & H3).
    destruct Hx as [-> | [-> | ->]]; [|done|].
    + destruct H1 as (_ & _ & Hn & _); [lia|]. done.
    + destruct H3 as (_ & _ & Hcl); [lia|]. rewrite Hcl in Hc.
      repeat (apply elem_of_cons in Hc as [Hc|Hc]; [done|]).
      by apply elem_of_nil in Hc.
  - intros (p & Hp & ->). exists p. split; [done|]. split; [by auto|].
    destruct (Hq p Hp) as [Hk Hlt].
    destruct (part_in_store d p 2 Hd Hk Hlt) as (e & He & Hs); [lia|].
    unfold matches. rewrite He. apply bool_decide_pack.
    destruct Hs as (_ & _ & H2 & _). destruct H2 as (? & _ & Hcl); [lia|].
    split; [done|]. rewrite Hcl. by left.
Qed.

Lemma find_closes q d x :
  wf_document d → refs_in q 0 d →
  x ∈ JQuery.find_below "span" "close" q d → ∃ p, p ∈ q ∧ x = p + 3.
Proof.
  intros Hd Hq (p & Hp & Hx & Hm)%find_in_containers; [|done|done].
  exists p. split; [done|].
  destruct (Hq p Hp) as [Hk Hlt]. destruct Hd as (Hl & Hs & Hb).
  destruct (matches_spec _ _ _ _ Hm) as (e & He & _ & Hc).
  pose proof (Hs x e He) as (_ & H1 & H2 & _).
  destruct Hx as [-> | [-> | ->]]; [| |done].
  - destruct H1 as (_ & _ & _ & Hn); [lia|]. done.
  - destruct H2 as (_ & _ & Hcl); [lia|]. rewrite Hcl in Hc.
    by apply list_elem_of_singleton in Hc.
Qed.

(** The selector returns containers. *)
Lemma select_containers k d :
  wf_document d → refs_in (select_div_data_id k d) 0 d.
Proof.
  intros (Hl & Hs & Hb) r (_ & e & He & Ht & _)%select_div_data_id_spec.
  split; [|by eapply lookup_lt_Some].
  destruct (Hs r e He) as (_ & H1 & H2 & H3).
  assert (Hk : r mod 4 = 0 ∨ r mod 4 = 1 ∨ r mod 4 = 2 ∨ r mod 4 = 3) by lia.
  destruct Hk as [Hk|[Hk|[Hk|Hk]]]; [done| | |].
  - destruct (H1 Hk) as (Ht' & _). by rewrite Ht in Ht'.
  - destruct (H2 Hk) as (Ht' & _). by rewrite Ht in Ht'.
  - destruct (H3 Hk) as (Ht' & _). by rewrite Ht in Ht'.
Qed.

(** *** From documents to states *)

Lemma wf_on_doc f s :
  length (elems (f (doc s))) = length (elems (doc s)) →
  wf_document (f (doc s)) → wf s → wf (on_doc f s).
Proof.
  intros Hl Hd [_ Hw]. split; [done|].
  intros w this Hthis. apply (wf_widget_grow (doc s)); [simpl; lia|by eapply Hw].
Qed.

Lemma wf_set_registry r s : wf s → wf (set_registry r s).
Proof. done. Qed.

Lemma set_msg_wf w v s : wf s → wf (set_msg w v s).
Proof.
  intros Hs. unfold set_msg. destruct (widgets s !! w) as [this|] eqn:Hw; [|done].
  apply wf_on_doc; [apply set_html_length| |done].
  destruct Hs as [Hd Hws]. apply set_html_wf_document; [|done].
  by destruct (Hws w this Hw) as (_ & _ & ? & _).
Qed.

Lemma destroy_wf w s : wf s → wf (after (destroy w s)).
Proof.
  intros Hs. unfold destroy. destruct (widgets s !! w) as [this|] eqn:Hw; [|done].
  simpl. apply wf_on_doc; [apply remove_length| |done].
  destruct Hs as [Hd Hws]. apply remove_wf_document; [|done].
  by destruct (Hws w this Hw) as (? & _).
Qed.

(** The widget [attach] builds when it takes over. *)
Lemma taken_over_wf_widget k d :
  wf_document d →
  let wr := select_div_data_id k d in
  wf_widget d (Widget wr (JQuery.find_below "span" "fa-spinner" wr d)
                         (JQuery.find_below "span" "smart-status-msg" wr d)
                         (JQuery.find_below "span" "close" wr d)).
Proof.
  intros Hd wr. pose proof (select_containers k d Hd) as Hwr. fold wr in Hwr.
  assert (Hl : length (elems d) mod 4 = 0) by (by destruct Hd).
  split; [done|]. split; [by apply find_icons|]. simpl. split; [|split].
  - intros x (p & Hp & ->)%find_banners; [|done|done].
    destruct (Hwr p Hp). lia.
  - intros x (p & Hp & ->)%find_closes; [|done|done].
    destruct (Hwr p Hp). lia.
  - intros x (p & Hp & ->)%find_closes; [|done|done].
    by replace (p + 3 - 3) with p by lia.
Qed.

Lemma each_keep_wf f q s :
  (∀ e, tag (f e) = tag e ∧ children (f e) = children e ∧ classes (f e) = classes e) →
  wf s → wf (on_doc (each f q) s).
Proof.
  intros Hf Hs. apply wf_on_doc; [apply each_length| |done].
  apply each_keep_wf_document; [done|apply Hs].
Qed.

Lemma refs_in_each f q' q k s :
  refs_in q k (doc s) → refs_in q k (doc (on_doc (each f q') s)).
Proof. apply refs_in_grow. unfold on_doc. cbn [doc]. by rewrite each_length. Qed.

Lemma appendTo_body_wf q s :
  refs_in q 0 (doc s) → wf s → wf (on_doc (appendTo_body q) s).
Proof.
  intros Hq Hs. apply wf_on_doc; [apply appendTo_body_length| |done].
  apply appendTo_body_wf_document; [done|apply Hs].
Qed.

Lemma refs_in_appendTo_body q' q k s :
  refs_in q k (doc s) → refs_in q k (doc (on_doc (appendTo_body q') s)).
Proof.
  apply refs_in_grow. unfold on_doc. cbn [doc]. by rewrite appendTo_body_length.
Qed.

Lemma attach_wf w tgt overwrite s : wf s → wf (after (attach w tgt overwrite s)).
Proof.
  intros Hs. unfold attach.
  destruct (widgets s !! w) as [this|] eqn:Hw; [|done].
  assert (Hwr : refs_in (wrapper this) 0 (doc s)).
  { destruct Hs as [_ Hws]. by destruct (Hws w this Hw) as (? & _). }
  assert (Hpage : wf (after (
            if negb (truthy (find global_key s)) then
              let s1 := on_doc (set_attr_data_id global_key (wrapper this)) s in
              let s2 := on_doc (appendTo_body (wrapper this)) s1 in
              Return (VWidget w) (set_registry (<[global_key := w]> (registry s2)) s2)
            else Return VFalse s))).
  { destruct (negb _); [|done]. simpl. apply wf_set_registry.
    apply appendTo_body_wf; [by apply refs_in_each|].
    by apply each_keep_wf. }
  destruct tgt as [| |els]; [done|done|]. clear Hpage.
  destruct (decide (head els ≫= t_id = Some "")).
  { pose proof (destroy_wf w s Hs) as Hd. by destruct (destroy w s). }
  set (key := "smart-" +:+ _).
  destruct (negb (truthy (find key s))).
  - destruct (head els) as [t0|]; [|done]. simpl. apply wf_set_registry.
    apply each_keep_wf; [done|].
    apply appendTo_body_wf; [by apply refs_in_each|].
    by apply each_keep_wf.
  - destruct overwrite; [|done]. simpl. apply wf_set_registry, set_msg_wf.
    destruct Hs as [Hd Hws]. split; [done|].
    intros w' this' [(-> & <- & _)|(_ & Hw')]%list_lookup_insert_Some.
    + by apply taken_over_wf_widget.
    + by eapply Hws.
Qed.

Lemma refs_in_same_length q k d d' :
  length (elems d') = length (elems d) → refs_in q k d → refs_in q k d'.
Proof. intros Hl. apply refs_in_grow. lia. Qed.

Lemma set_msg_length w v s :
  length (elems (doc (set_msg w v s))) = length (elems (doc s)).
Proof.
  unfold set_msg. destruct (widgets s !! w); [|done]. apply set_html_length.
Qed.

Lemma set_msg_widgets w v s : widgets (set_msg w v s) = widgets s.
Proof. unfold set_msg. by destruct (widgets s !! w). Qed.

Lemma reset_wf w s : wf s → wf (after (reset w s)).
Proof.
  intros Hs. unfold reset. destruct (widgets s !! w) as [this|] eqn:Hw; [|done].
  simpl. pose proof (set_msg_wf w (Some "Loading...") s Hs) as Hs1.
  apply wf_on_doc; [apply each_length| |done].
  apply set_attr_class_wf_document.
  - intros Hin. repeat (apply elem_of_cons in Hin as [Hin|Hin]; [done|]).
    by apply elem_of_nil in Hin.
  - intros Hin. repeat (apply elem_of_cons in Hin as [Hin|Hin]; [done|]).
    by apply elem_of_nil in Hin.
  - apply (refs_in_same_length _ _ (doc s)); [apply set_msg_length|].
    destruct Hs as [_ Hws]. by destruct (Hws w this Hw) as (_ & ? & _).
  - apply Hs1.
Qed.

Lemma show_wf w txt s : wf s → wf (after (show w txt s)).
Proof.
  intros Hs. unfold show. destruct (widgets s !! w) as [this|]; [|done].
  simpl. apply each_keep_wf; [done|].
  destruct (nonempty txt); [by apply set_msg_wf|done].
Qed.

Lemma hide_wf w duration s : wf s → wf (after (hide w duration s)).
Proof.
  intros Hs. unfold hide. destruct (widgets s !! w) as [this|]; [|done].
  simpl. by apply each_keep_wf.
Qed.

Lemma final_wf w txt success s : wf s → wf (after (final w txt success s)).
Proof.
  intros Hs. unfold final. destruct (widgets s !! w) as [this|] eqn:Hw; [|done].
  destruct Hs as [Hd Hws].
  destruct (Hws w this Hw) as (_ & Hsp & Hbn & _).
  set (d1 := removeClass "fa-spinner" (spinner this) (doc s)).
  set (d2 := removeClass "fa-spin" (spinner this) d1).
  set (d3 := set_html txt (banner this) d2).
  assert (Hl1 : length (elems d1) = length (elems (doc s))) by apply each_length.
  assert (Hl2 : length (elems d2) = length (elems (doc s))).
  { unfold d2, removeClass. by rewrite each_length. }
  assert (Hl3 : length (elems d3) = length (elems (doc s))).
  { unfold d3. by rewrite set_html_length. }
  assert (Hd1 : wf_document d1) by by apply removeClass_wf_document.
  assert (Hd2 : wf_document d2).
  { apply removeClass_wf_document; [|done]. by eapply refs_in_same_length. }
  assert (Hd3 : wf_document d3).
  { apply set_html_wf_document; [|done]. by eapply refs_in_same_length. }
  assert (Hadd : ∀ c, c ≠ "smart-status-msg" → c ≠ "close" →
            wf (on_doc (λ _, addClass c (spinner this) d3) s)).
  { intros c ? ?. apply wf_on_doc.
    - unfold addClass. by rewrite each_length.
    - apply addClass_wf_document; [done|done| |done]. by eapply refs_in_same_length.
    - by split. }
  destruct success; simpl; by apply Hadd.
Qed.

Lemma same_but_fx_wf_document d d' :
  same_but_fx d d' → wf_document d → wf_document d'.
Proof.
  intros (Hl & Hb & Hc) (Hlen & Hs & Hbody). split; [by rewrite Hl|]. split.
  - intros r e' He'. specialize (Hc r). rewrite He' in Hc.
    destruct (elems d !! r) as [e|] eqn:He; [|done].
    unfold content in Hc. simplify_eq/=. apply (shaped_keep _ e); try done.
    by apply Hs.
  - rewrite Hb. eapply refs_in_same_length; done.
Qed.

Lemma click_wf r s : wf s → wf (user_click r s).
Proof.
  intros Hs. pose proof (click_same_but_fx r (doc s)) as Hsame.
  apply wf_on_doc; [apply Hsame| |done].
  eapply same_but_fx_wf_document; [done|apply Hs].
Qed.

(** *** The constructor *)

Lemma children_below d r e c :
  wf_document d → elems d !! r = Some e → c ∈ children e → c < length (elems d).
Proof.
  intros (Hl & Hs & _) He Hc. pose proof (lookup_lt_Some _ _ _ He) as Hlt.
  destruct (Hs r e He) as (H0 & H1 & H2 & H3).
  assert (Hk : r mod 4 = 0 ∨ r mod 4 = 1 ∨ r mod 4 = 2 ∨ r mod 4 = 3) by lia.
  destruct Hk as [Hk|[Hk|[Hk|Hk]]].
  - destruct (H0 Hk) as [_ Hch]. rewrite Hch in Hc.
    repeat (apply elem_of_cons in Hc as [->|Hc]; [lia|]).
    by apply elem_of_nil in Hc.
  - destruct (H1 Hk) as (_ & Hch & _). rewrite Hch in Hc. by apply elem_of_nil in Hc.
  - destruct (H2 Hk) as (_ & Hch & _). rewrite Hch in Hc. by apply elem_of_nil in Hc.
  - destruct (H3 Hk) as (_ & Hch & _). rewrite Hch in Hc. by apply elem_of_nil in Hc.
Qed.

(** A reference beyond the old store hangs nowhere, unless one of the new
    elements names it. *)
Lemma unlinked_over_store d news fx x :
  wf_document d → (length (elems d) ≤ x)%nat →
  (∀ e, e ∈ news → x ∉ children e) →
  unlinked x (Document (elems d ++ news) (body d) fx).
Proof.
  intros Hd Hx Hnews. split; simpl.
  - intros Hin. destruct Hd as (_ & _ & Hb). destruct (Hb x Hin). lia.
  - intros e [He|He]%elem_of_app; [|by apply Hnews].
    apply list_elem_of_lookup_1 in He as [r He]. intros Hc.
    pose proof (children_below d r e x Hd He Hc). lia.
Qed.

Lemma with_children_same e : with_children (children e) e = e.
Proof. by destruct e. Qed.

Lemma detach_unlinked r d : unlinked r d → detach r d = d.
Proof.
  intros [Hb Hc]. destruct d as [h b fx]. unfold detach. simpl in *. f_equal.
  - rewrite <- (list_fmap_id h) at 2. apply list_fmap_ext.
    intros i e He. simpl. rewrite drop_ref_id; [apply with_children_same|].
    apply Hc. by eapply list_elem_of_lookup_2.
  - by apply drop_ref_id.
Qed.

Lemma append_child_unlinked p r d :
  unlinked r d →
  append_child p r d
  = Document (alter (λ e, with_children (children e ++ [r]) e) p (elems d))
             (body d) (body_fx d).
Proof. intros Hr. unfold append_child. by rewrite (detach_unlinked r d Hr). Qed.

Lemma build_block d (e0 e1 e2 e3 : element) :
  wf_document d →
  children e0 = [] → children e1 = [] → children e2 = [] → children e3 = [] →
  let n := length (elems d) in
  append_child n (n + 3)
    (append_child n (n + 2)
       (append_child n (n + 1)
          (Document (elems d ++ [e0; e1; e2; e3]) (body d) (body_fx d))))
  = Document (elems d ++ [with_children [n + 1; n + 2; n + 3] e0; e1; e2; e3])
             (body d) (body_fx d).
Proof.
  intros Hd H0 H1 H2 H3 n.
  assert (Halter : ∀ f (l : list element),
            alter f n (elems d ++ l) = elems d ++ alter f 0 l).
  { intros f l. rewrite alter_app_r_alt by done. by rewrite Nat.sub_diag. }
  assert (Hfresh : ∀ x (e0' : element),
            (n < x)%nat → x ∉ children e0' →
            unlinked x (Document (elems d ++ [e0'; e1; e2; e3]) (body d) (body_fx d))).
  { intros x e0' Hx Hx0. apply unlinked_over_store; [done|lia|].
    intros e He.
    repeat (apply elem_of_cons in He as [->|He];
            [by rewrite ?H1, ?H2, ?H3; try apply not_elem_of_nil|]).
    by apply elem_of_nil in He. }
  assert (Hnot : ∀ x (l : list nat), Forall (λ y, y ≠ x) l → x ∉ l).
  { intros x l Hl Hin. rewrite Forall_forall in Hl. by apply (Hl x). }
  rewrite (append_child_unlinked n (n + 1)).
  2:{ apply Hfresh; [lia|]. rewrite H0. apply not_elem_of_nil. }
  cbn [elems body body_fx]. rewrite Halter. cbn [alter list_alter]. rewrite H0.
  rewrite (append_child_unlinked n (n + 2)).
  2:{ apply Hfresh; [lia|]. simpl. apply Hnot. repeat constructor. lia. }
  cbn [elems body body_fx]. rewrite Halter. cbn [alter list_alter].
  rewrite (append_child_unlinked n (n + 3)).
  2:{ apply Hfresh; [lia|]. simpl. apply Hnot. repeat constructor; lia. }
  cbn [elems body body_fx]. rewrite Halter. cbn [alter list_alter]. done.
Qed.

(** The constructor, in one step up to the point where it looks at its
    arguments. *)
Lemma new_constructed txt tgt s :
  wf s →
  new txt tgt s
  = let w := length (widgets s) in
    let s2 := if nonempty txt then set_msg w txt (constructed s) else constructed s in
    match tgt with
    | Omitted => Return w s2
    | _ => match attach w tgt false s2 with
           | Return _ s3 => Return w s3
           | Throw s3 => Throw s3
           end
    end.
Proof.
  intros [Hd _]. unfold new, create, constructed, fresh_block.
  cbv beta iota zeta delta [elems body body_fx].
  fold (elems (doc s)) (body (doc s)) (body_fx (doc s)).
  set (n := length (elems (doc s))).
  rewrite <- !app_assoc. cbn [app].
  replace (length (elems (doc s) ++ [_])) with (n + 1)
    by (rewrite length_app; simpl; lia).
  replace (length (elems (doc s) ++ [_; _])) with (n + 2)
    by (rewrite length_app; simpl; lia).
  replace (length (elems (doc s) ++ [_; _; _])) with (n + 3)
    by (rewrite length_app; simpl; lia).
  rewrite (build_block (doc s)) by done. done.
Qed.

Lemma constructed_wf s : wf s → wf (constructed s).
Proof.
  intros [Hd Hws]. pose proof Hd as (Hl & Hs & Hb).
  unfold constructed. set (n := length (elems (doc s))).
  assert (Hlen : length (elems (doc s) ++ fresh_block n) = n + 4).
  { rewrite length_app. done. }
  split; [split; [|split]|]; cbn [doc widgets elems body].
  - rewrite Hlen. lia.
  - intros r e. rewrite lookup_app_Some. intros [He|[Hge He]]; [by apply Hs|].
    fold n in Hge, He.
    assert (Hr : r = n + (r - n)) by lia. revert He. generalize (r - n) Hr.
    intros j ->. replace (n + j - n) with j by lia.
    destruct j as [|[|[|[|j]]]]; [| | | |done]; intros [= <-];
      unfold shaped; repeat apply conj; intros ?; try (exfalso; lia);
      simpl; repeat split; try done;
      try (repeat f_equal; lia);
      by apply (bool_decide_unpack _); vm_compute.
  - intros x Hx. destruct (Hb x Hx) as [? Hlt]. split; [done|].
    cbn [elems]. rewrite Hlen. fold n in Hlt. lia.
  - intros w this. rewrite lookup_app_Some. intros [Hw|[_ Hw]].
    + apply (wf_widget_grow (doc s)); [|by eapply Hws]. simpl. fold n. lia.
    + destruct (w - length (widgets s)) as [|?]; [|done]. injection Hw as <-.
      assert (Hone : ∀ x k, x mod 4 = k → x < n + 4 →
                refs_in [x] k (Document (elems (doc s) ++ fresh_block n)
                                        (body (doc s)) (body_fx (doc s)))).
      { intros x k ? ? y ->%list_elem_of_singleton.
        split; [done|]. cbn [elems]. by rewrite Hlen. }
      split; [apply Hone; lia|]. split; [apply Hone; lia|].
      split; [apply Hone; lia|]. split; [apply Hone; lia|].
      intros c ->%list_elem_of_singleton. simpl.
      apply list_elem_of_singleton. lia.
Qed.

Lemma new_wf txt tgt s : wf s → wf (after (new txt tgt s)).
Proof.
  intros Hs. rewrite new_constructed by done. cbv zeta.
  set (w := length (widgets s)).
  assert (Hs2 : wf (if nonempty txt then set_msg w txt (constructed s)
                    else constructed s)).
  { destruct (nonempty txt); [apply set_msg_wf|]; by apply constructed_wf. }
  destruct tgt as [| |els]; [done| |].
  - pose proof (attach_wf w DocumentBody false _ Hs2) as Ha.
    by destruct (attach w DocumentBody false _).
  - pose proof (attach_wf w (Target els) false _ Hs2) as Ha.
    by destruct (attach w (Target els) false _).
Qed.

Lemma initial_wf : wf initial.
Proof.
  split; [split; [done|split]|]; [done| |done].
  intros r Hr. by apply elem_of_nil in Hr.
Qed.

Lemma run_wf c s : wf s → wf (run c s).
Proof.
  intros Hs. destruct c; simpl.
  - by apply new_wf.
  - by apply attach_wf.
  - by apply destroy_wf.
  - by apply reset_wf.
  - by apply show_wf.
  - by apply hide_wf.
  - by apply final_wf.
  - by apply set_msg_wf.
  - by apply click_wf.
Qed.

(** Every state a page can be in has the shape. *)
Lemma reachable_wf s : reachable s → wf s.
Proof. induction 1; [apply initial_wf|by apply run_wf]. Qed.

(** *** What the shape gives *)

(** A close control a widget names sits directly in a container the
    widget names. *)
Lemma close_control_parent s w this c :
  wf s → widgets s !! w = Some this → c ∈ close_btn this →
  parent_of (doc s) c = Some (Elem (c - 3)) ∧ c - 3 ∈ wrapper this.
Proof.
  intros [Hd Hws] Hw Hc.
  destruct (Hws w this Hw) as (_ & _ & _ & Hcl & Hin).
  destruct (Hcl c Hc) as [Hk Hlt]. split; [|by apply Hin].
  pose proof Hd as (Hl & Hs & Hb).
  destruct (part_in_store (doc s) (c - 3) 0 Hd) as (ep & Hep & Hsp); [lia|lia|lia|].
  rewrite Nat.add_0_r in Hep, Hsp.
  unfold parent_of. destruct (decide (c ∈ body (doc s))) as [Hbody|_].
  { destruct (Hb c Hbody). lia. }
  destruct (list_find _ _) as [[i e]|] eqn:Hf; simpl.
  - apply list_find_Some in Hf as (He & Hin' & _).
    pose proof (children_below _ _ _ _ Hd He Hin') as _.
    destruct (Hs i e He) as (H0 & H1 & H2 & H3).
    assert (Hi : i mod 4 = 0 ∨ i mod 4 = 1 ∨ i mod 4 = 2 ∨ i mod 4 = 3) by lia.
    destruct Hi as [Hi|[Hi|[Hi|Hi]]].
    + destruct (H0 Hi) as [_ Hch]. rewrite Hch in Hin'.
      do 2 f_equal.
      repeat (apply elem_of_cons in Hin' as [Hin'|Hin']; [lia|]).
      by apply elem_of_nil in Hin'.
    + destruct (H1 Hi) as (_ & Hch & _). rewrite Hch in Hin'.
      by apply elem_of_nil in Hin'.
    + destruct (H2 Hi) as (_ & Hch & _). rewrite Hch in Hin'.
      by apply elem_of_nil in Hin'.
    + destruct (H3 Hi) as (_ & Hch & _). rewrite Hch in Hin'.
      by apply elem_of_nil in Hin'.
  - apply list_find_None in Hf. rewrite Forall_forall in Hf.
    exfalso. apply (Hf ep); [by eapply list_elem_of_lookup_2|].
    destruct Hsp as (H0 & _). destruct H0 as [_ ->]; [lia|].
    replace (c - 3 + 3) with c by lia. by do 2 right; left.
Qed.


Lemma subtree_node (h : list element) n x e :
  h !! x = Some e → subtree (S n) h x = x :: (children e ≫= subtree n h).
Proof. intros He. simpl. by rewrite He. Qed.

(** The bounded walk reaches everything: the document is its containers,
    each followed by its three parts. *)
Lemma in_document_containers d :
  wf_document d → in_document d = body d ≫= λ p, [p; p + 1; p + 2; p + 3].
Proof.
  intros Hd. pose proof Hd as (Hl & Hs & Hb). unfold in_document.
  apply Forall_bind_ext. rewrite Forall_forall. intros p Hp.
  destruct (Hb p Hp) as [Hk Hlt].
  destruct (part_in_store d p 0 Hd Hk Hlt) as (e & He & _); [lia|].
  rewrite Nat.add_0_r in He.
  destruct (length (elems d)) as [|[|n]] eqn:Hn; [lia|lia|].
  rewrite <- Hn in Hlt. rewrite (subtree_node _ _ _ e He). f_equal.
  destruct (Hs p e He) as ((_ & Hch) & _); [done|]. rewrite Hch.
  destruct (part_in_store d p 1 Hd Hk Hlt) as (e1 & He1 & Hs1); [lia|].
  destruct (part_in_store d p 2 Hd Hk Hlt) as (e2 & He2 & Hs2); [lia|].
  destruct (part_in_store d p 3 Hd Hk Hlt) as (e3 & He3 & Hs3); [lia|].
  rewrite !bind_cons.
  rewrite (subtree_leaf _ _ _ e1 He1), (subtree_leaf _ _ _ e2 He2),
          (subtree_leaf _ _ _ e3 He3); [done| | |];
    by eapply (leaf_children p); [| |done]; [done|lia].
Qed.

Lemma scenario_pages_reachable :
  reachable Scenario.page_A
  ∧ reachable Scenario.page_A_B
  ∧ reachable Scenario.page_A_moved_B
  ∧ reachable Scenario.page_A_reattached
  ∧ reachable Scenario.page_A_failed
  ∧ reachable Scenario.page_detached.
Proof.
  assert (HA : reachable Scenario.page_A).
  { apply (reachable_run _ (CallNew (Some "Uploading") Scenario.btn1)).
    apply reachable_initial. }
  split; [done|]. split.
  { by apply (reachable_run _ (CallNew (Some "Retrying") Omitted)). }
  split.
  { apply (reachable_run _ (CallNew (Some "Retrying") Omitted)).
    by apply (reachable_run _ (CallAttach 0 Scenario.btn2 false)). }
  split.
  { apply (reachable_run _ (CallAttach 0 Scenario.btn1 false)).
    by apply (reachable_run _ (CallDestroy 0)). }
  split.
  { by apply (reachable_run _ (CallFinal 0 (Some "Upload failed") false)). }
  apply (reachable_run _ (CallNew None Omitted)). apply reachable_initial.
Qed.

(** *** Pages built from plain text and safe identifiers *)

Lemma plain_reachable_reachable s : plain_reachable s → reachable s.
Proof. induction 1; [apply reachable_initial|by apply reachable_run]. Qed.

Lemma plain_reachable_wf s : plain_reachable s → wf s.
Proof. intros H. by apply reachable_wf, plain_reachable_reachable. Qed.






















Lemma scenario_pages_plain :
  plain_reachable Scenario.page_A
  ∧ plain_reachable Scenario.page_A_B
  ∧ plain_reachable Scenario.page_A_moved_B
  ∧ plain_reachable Scenario.page_A_reattached
  ∧ plain_reachable Scenario.page_A_failed
  ∧ plain_reachable Scenario.page_detached.
Proof.
  assert (HA : plain_reachable Scenario.page_A).
  { apply (plain_reachable_run _ (CallNew (Some "Uploading") Scenario.btn1));
      [apply plain_reachable_initial|done]. }
  split; [done|]. split.
  { by apply (plain_reachable_run _ (CallNew (Some "Retrying") Omitted)). }
  split.
  { apply (plain_reachable_run _ (CallNew (Some "Retrying") Omitted)); [|done].
    by apply (plain_reachable_run _ (CallAttach 0 Scenario.btn2 false)). }
  split.
  { apply (plain_reachable_run _ (CallAttach 0 Scenario.btn1 false)); [|done].
    by apply (plain_reachable_run _ (CallDestroy 0)). }
  split.
  { by apply (plain_reachable_run _ (CallFinal 0 (Some "Upload failed") false)). }
  apply (plain_reachable_run _ (CallNew None Omitted)); [|done].
  apply plain_reachable_initial.
Qed.

End Invariant.

(** ** The lifecycle of the registry *)

Module Lifecycle.
Import Dom SmartStatus Run DomFacts Invariant.

Lemma smart_key_inj (a b : string) : "smart-" +:+ a = "smart-" +:+ b → a = b.
Proof. intros H. by simplify_eq/=. Qed.

(** [find] is truthy exactly on registered keys. *)
Lemma find_free (k : string) (s : state) : registry s !! k = None → find k s = VFalse.
Proof. unfold find. by intros ->. Qed.

Lemma find_taken (k : string) (s : state) (w : wid) :
  registry s !! k = Some w → find k s = VWidget w.
Proof. unfold find. by intros ->. Qed.

(** [attach] without [overwrite] on a registered key: nothing happens. *)
Lemma attach_taken (s : state) (w : wid) (els : list target_element) (id : option string) :
  is_Some (widgets s !! w) →
  head els ≫= t_id = id → id ≠ Some "" →
  is_Some (registry s !! ("smart-" +:+ to_string id)) →
  attach w (Target els) false s = Return VFalse s.
Proof.
  intros [this Hw] Hid Hne [w0 Hk]. unfold attach. rewrite Hw, Hid.
  destruct (decide (id = Some "")) as [|_]; [done|].
  by rewrite (find_taken _ _ _ Hk).
Qed.

(** [attach] on a free key: the widget is registered and returned. *)
Lemma attach_free (s : state) (w : wid) (els : list target_element)
    (t0 : target_element) (ov : bool) :
  is_Some (widgets s !! w) →
  head els = Some t0 → t_id t0 ≠ Some "" →
  registry s !! ("smart-" +:+ to_string (t_id t0)) = None →
  ∃ s1, attach w (Target els) ov s = Return (VWidget w) s1
        ∧ registry s1 = <["smart-" +:+ to_string (t_id t0) := w]> (registry s)
        ∧ widgets s1 = widgets s.
Proof.
  intros [this Hw] Hh Hne Hk. unfold attach. rewrite Hw, Hh. simpl.
  destruct (decide (t_id t0 = Some "")) as [|_]; [done|].
  rewrite (find_free _ _ Hk). simpl. eexists. split; [done|]. by split.
Qed.

(** [destroy] deletes the entry named by the data-id of the container and
    takes the container out of the document. *)
Lemma destroy_spec (s : state) (w : wid) (this : widget) :
  widgets s !! w = Some this →
  ∃ s1, destroy w s = Return tt s1
        ∧ registry s1 =
            delete (to_string (attr_data_id (wrapper this) (doc s))) (registry s)
        ∧ widgets s1 = widgets s
        ∧ ∀ c, c ∈ wrapper this → c ∉ in_document (doc s1).
Proof.
  intros Hw. unfold destroy. rewrite Hw. eexists. split; [done|]. simpl.
  rewrite remove_attr_data_id. repeat split.
  intros c Hc. by apply remove_not_in_document.
Qed.

(** C1. On a target whose id is a non-empty string and whose key
    ["smart-" + id] is not registered, [attach] without [overwrite] returns
    the widget and enters it in the registry under that key; from then on
    an [attach] without [overwrite] by any widget to any target with that
    id returns [false] and leaves the state, the registry included, as it
    was. *)
Theorem attach_succeeds_exactly_once
    (s : state) (w : wid) (els : list target_element) (t0 : target_element) (id : string) :
  is_Some (widgets s !! w) →
  head els = Some t0 → t_id t0 = Some id → id ≠ "" →
  registry s !! ("smart-" +:+ id) = None →
  ∃ s1, attach w (Target els) false s = Return (VWidget w) s1
        ∧ registry s1 = <["smart-" +:+ id := w]> (registry s)
        ∧ find ("smart-" +:+ id) s1 = VWidget w
        ∧ ∀ (w' : wid) (els' : list target_element) (t0' : target_element),
            is_Some (widgets s1 !! w') →
            head els' = Some t0' → t_id t0' = Some id →
            attach w' (Target els') false s1 = Return VFalse s1.
Proof.
  intros Hw Hh Hid Hne Hk.
  destruct (attach_free s w els t0 false) as (s1 & Ha & Hr & Hws); try done.
  { rewrite Hid. congruence. }
  { by rewrite Hid. }
  rewrite Hid in Hr. simpl in Hr.
  exists s1. split; [done|]. split; [done|]. split.
  { apply find_taken. rewrite Hr. apply lookup_insert_eq. }
  intros w' els' t0' Hw' Hh' Hid'.
  apply (attach_taken s1 w' els' (Some id)); [done| |congruence|].
  - by rewrite Hh'.
  - simpl. rewrite Hr, lookup_insert_eq. by eexists.
Qed.

Lemma attach_succeeds_exactly_once_witness :
  ∃ s1, attach 0 Scenario.btn1 false Scenario.page_detached = Return (VWidget 0) s1
        ∧ registry s1 = <["smart-btn1" := 0]> (registry Scenario.page_detached)
        ∧ find "smart-btn1" s1 = VWidget 0
        ∧ ∀ (w' : wid) (els' : list target_element) (t0' : target_element),
            is_Some (widgets s1 !! w') →
            head els' = Some t0' → t_id t0' = Some "btn1" →
            attach w' (Target els') false s1 = Return VFalse s1.
Proof.
  apply (attach_succeeds_exactly_once Scenario.page_detached 0 _
           (TargetElement (Some "btn1") "10px" "40px") "btn1").
  - by eexists.
  - reflexivity.
  - reflexivity.
  - discriminate.
  - reflexivity.
Defined.

(** C4. A page-level [attach] (target left out, or [document.body]) enters
    the widget under the page-level key and returns it when that key is
    free; when the key is held, whatever [overwrite] is, it returns [false]
    and changes nothing, so the holder stays the holder. *)
Theorem page_level_attach_is_exclusive
    (s : state) (w : wid) (tgt : target) (overwrite : bool) :
  is_Some (widgets s !! w) →
  tgt = Omitted ∨ tgt = DocumentBody →
  (registry s !! global_key = None →
     ∃ s1, attach w tgt overwrite s = Return (VWidget w) s1
           ∧ registry s1 = <[global_key := w]> (registry s)
           ∧ find global_key s1 = VWidget w)
  ∧ (∀ holder : wid, registry s !! global_key = Some holder →
       attach w tgt overwrite s = Return VFalse s
       ∧ find global_key s = VWidget holder).
Proof.
  intros [this Hw] Htgt. split.
  - intros Hk. unfold attach. rewrite Hw.
    destruct Htgt as [-> | ->]; rewrite (find_free _ _ Hk); simpl;
      (eexists; split; [done|]; split; [done|]);
      apply find_taken; simpl; apply lookup_insert_eq.
  - intros holder Hk. split; [|by apply find_taken].
    unfold attach. rewrite Hw.
    by destruct Htgt as [-> | ->]; rewrite (find_taken _ _ _ Hk).
Qed.

Lemma page_level_attach_is_exclusive_witness :
  (∃ s1, attach 0 DocumentBody true Scenario.page_A = Return (VWidget 0) s1
         ∧ registry s1 = <[global_key := 0]> (registry Scenario.page_A)
         ∧ find global_key s1 = VWidget 0)
  ∧ (attach 1 Omitted true Scenario.page_G_H = Return VFalse Scenario.page_G_H
     ∧ find global_key Scenario.page_G_H = VWidget 0).
Proof.
  split.
  - apply (page_level_attach_is_exclusive Scenario.page_A 0 DocumentBody true).
    + by eexists.
    + by right.
    + reflexivity.
  - apply (page_level_attach_is_exclusive Scenario.page_G_H 1 Omitted true).
    + by eexists.
    + by left.
    + reflexivity.
Defined.

(** C10. A target element without an id attribute is not turned away:
    [attach] goes on with the key ["smart-undefined"].  When that key is
    free the widget is registered under it and returned, and from then on
    an [attach] without [overwrite] to any target without id returns
    [false] and changes nothing; when the key is held, [attach] without
    [overwrite] already returns [false] and changes nothing. *)
Theorem attach_without_id_shares_one_key
    (s : state) (w : wid) (els : list target_element) (t0 : target_element) :
  is_Some (widgets s !! w) →
  head els = Some t0 → t_id t0 = None →
  (registry s !! "smart-undefined" = None →
     ∃ s1, attach w (Target els) false s = Return (VWidget w) s1
           ∧ registry s1 = <["smart-undefined" := w]> (registry s)
           ∧ ∀ (w' : wid) (els' : list target_element) (t0' : target_element),
               is_Some (widgets s1 !! w') →
               head els' = Some t0' → t_id t0' = None →
               attach w' (Target els') false s1 = Return VFalse s1)
  ∧ (is_Some (registry s !! "smart-undefined") →
       attach w (Target els) false s = Return VFalse s).
Proof.
  intros Hw Hh Hid. split.
  - intros Hk.
    destruct (attach_free s w els t0 false) as (s1 & Ha & Hr & Hws); try done.
    { by rewrite Hid. }
    { by rewrite Hid. }
    rewrite Hid in Hr. simpl in Hr.
    exists s1. split; [done|]. split; [done|].
    intros w' els' t0' Hw' Hh' Hid'.
    apply (attach_taken s1 w' els' None); [done| |done|].
    + by rewrite Hh'.
    + simpl. rewrite Hr, lookup_insert_eq. by eexists.
  - intros Hk. apply (attach_taken s w els None); [done| |done|done].
    by rewrite Hh.
Qed.

Lemma attach_without_id_shares_one_key_witness :
  (∃ s1, attach 0 Scenario.no_id_a false Scenario.page_detached = Return (VWidget 0) s1
         ∧ registry s1 = <["smart-undefined" := 0]> (registry Scenario.page_detached)
         ∧ ∀ (w' : wid) (els' : list target_element) (t0' : target_element),
             is_Some (widgets s1 !! w') →
             head els' = Some t0' → t_id t0' = None →
             attach w' (Target els') false s1 = Return VFalse s1)
  ∧ attach 1 Scenario.no_id_b false Scenario.page_N_M
    = Return VFalse Scenario.page_N_M.
Proof.
  split.
  - apply (attach_without_id_shares_one_key Scenario.page_detached 0 _
             (TargetElement None "0px" "16px")).
    + by eexists.
    + reflexivity.
    + reflexivity.
    + reflexivity.
  - apply (attach_without_id_shares_one_key Scenario.page_N_M 1 _
             (TargetElement None "50px" "16px")).
    + by eexists.
    + reflexivity.
    + reflexivity.
    + by eexists.
Defined.

(** C2, at a target element that has no id attribute: [attach] returns the
    widget, not [false], the widget is in the document and not destroyed,
    and the registry has a new entry, under ["smart-undefined"].  (The
    guard of the source compares the id with the empty string only.) *)
Theorem attach_without_id_is_not_rejected :
  ∃ s1, attach 0 Scenario.no_id_a false Scenario.page_detached = Return (VWidget 0) s1
        ∧ registry Scenario.page_detached = ∅
        ∧ registry s1 !! "smart-undefined" = Some 0
        ∧ in_document (doc s1) = [0; 1; 2; 3].
Proof. eexists. split; [reflexivity|]. by vm_compute. Qed.

(** The other half of the guard: an id that is the empty string is turned
    away, the widget destroys itself and no entry is added. *)
Lemma attach_empty_id_fails
    (s : state) (w : wid) (this : widget) (els : list target_element) (t0 : target_element) :
  widgets s !! w = Some this →
  head els = Some t0 → t_id t0 = Some "" →
  ∀ overwrite, ∃ s1,
    attach w (Target els) overwrite s = Return VFalse s1
    ∧ destroy w s = Return tt s1
    ∧ registry s1 ⊆ registry s
    ∧ ∀ c, c ∈ wrapper this → c ∉ in_document (doc s1).
Proof.
  intros Hw Hh Hid overwrite.
  destruct (destroy_spec s w this Hw) as (s1 & Hd & Hr & _ & Hdoc).
  exists s1. unfold attach. rewrite Hw, Hh. simpl. rewrite Hid.
  destruct (decide (Some "" = Some "")) as [_|]; [|done].
  rewrite Hd. repeat split; [|done]. rewrite Hr. apply delete_subseteq.
Qed.

(** [attach] with [overwrite] on a registered key, spelled out. *)
Lemma attach_overwrite_spec
    (s : state) (w : wid) (els : list target_element) (id : option string) :
  is_Some (widgets s !! w) →
  head els ≫= t_id = id → id ≠ Some "" →
  is_Some (registry s !! ("smart-" +:+ to_string id)) →
  let key := "smart-" +:+ to_string id in
  let wr := select_div_data_id key (doc s) in
  let bn := JQuery.find_below "span" "smart-status-msg" wr (doc s) in
  let this' := Widget wr (JQuery.find_below "span" "fa-spinner" wr (doc s)) bn
                      (JQuery.find_below "span" "close" wr (doc s)) in
  attach w (Target els) true s
  = Return (VWidget w)
           (State (set_html (msg w s) bn (doc s))
                  (<[w := this']> (widgets s))
                  (<[key := w]> (registry s))).
Proof.
  intros [this Hw] Hid Hne [w0 Hk]. simpl. unfold attach. rewrite Hw, Hid.
  destruct (decide (id = Some "")) as [|_]; [done|].
  rewrite (find_taken _ _ _ Hk). simpl. unfold set_msg. simpl.
  rewrite list_lookup_insert_eq by (by eapply lookup_lt_Some). done.
Qed.

Lemma set_html_keeps {A} (g : element → A) v q d r :
  (∀ str e, g (with_inner str e) = g e) →
  g <$> elems (set_html v q d) !! r = g <$> elems d !! r.
Proof. intros Hg. destruct v as [str|]; [|done]. simpl. by apply each_keeps. Qed.





(** The scenario of the specification, run: A on #btn1 fails with "Upload
    failed", B takes over with "Retrying".  B shares A's container, banner
    and close control and shows "Retrying"; its spinner reference is empty,
    because the icon element lost the class [fa-spinner] in [final]. *)
Example retry_scenario :
  let s := after (new (Some "Retrying") Omitted Scenario.page_A_failed) in
  find "smart-btn1" s = VWidget 0
  ∧ msg 0 s = Some "Upload failed"
  ∧ ∃ s1, attach 1 Scenario.btn1 true s = Return (VWidget 1) s1
          ∧ find "smart-btn1" s1 = VWidget 1
          ∧ msg 1 s1 = Some "Retrying"
          ∧ widgets s1 !! 1 = Some (Widget [0] [] [2] [3]).
Proof.
  split; [reflexivity|]. split; [reflexivity|].
  eexists. split; [reflexivity|]. by vm_compute.
Qed.

(** C5 as stated fails for a widget that is registered under a key its
    container no longer carries.  A was attached to #btn1 and then to
    #btn2; it is still registered under ["smart-btn1"], but [destroy]
    deletes ["smart-btn2"], so a later [attach] to #btn1 without
    [overwrite] is turned away. *)
Lemma destroy_then_attach_counterexample :
  let s := Scenario.page_A_moved_B in
  registry s !! "smart-btn1" = Some 0
  ∧ ∃ s1, destroy 0 s = Return tt s1
          ∧ registry s1 !! "smart-btn1" = Some 0
          ∧ attach 1 Scenario.btn1 false s1 = Return VFalse s1.
Proof.
  split; [reflexivity|]. eexists. split; [reflexivity|].
  split; reflexivity.
Qed.

(** C5, amended.  For every widget registered under ["smart-" + id] whose
    container carries that key as its data-id ([id] a non-empty string):
    after [destroy()] the key is free, and an [attach] without [overwrite]
    by any widget to a target with that id returns the attaching widget
    and registers it under the key. *)
Theorem destroy_then_attach_succeeds
    (s : state) (w : wid) (this : widget) (id : string)
    (w' : wid) (els : list target_element) (t0 : target_element) :
  widgets s !! w = Some this →
  registry s !! ("smart-" +:+ id) = Some w →
  attr_data_id (wrapper this) (doc s) = Some ("smart-" +:+ id) →
  id ≠ "" →
  is_Some (widgets s !! w') →
  head els = Some t0 → t_id t0 = Some id →
  ∃ s1 s2, destroy w s = Return tt s1
           ∧ registry s1 !! ("smart-" +:+ id) = None
           ∧ attach w' (Target els) false s1 = Return (VWidget w') s2
           ∧ registry s2 !! ("smart-" +:+ id) = Some w'
           ∧ find ("smart-" +:+ id) s2 = VWidget w'.
Proof.
  intros Hw Hreg Hattr Hne Hw' Hh Hid.
  destruct (destroy_spec s w this Hw) as (s1 & Hd & Hr & Hws & _).
  rewrite Hattr in Hr. simpl in Hr.
  assert (Hfree : registry s1 !! ("smart-" +:+ id) = None).
  { rewrite Hr. apply lookup_delete_eq. }
  destruct (attach_free s1 w' els t0 false) as (s2 & Ha & Hr2 & _).
  { by rewrite Hws. }
  { done. }
  { rewrite Hid. congruence. }
  { by rewrite Hid. }
  rewrite Hid in Hr2. simpl in Hr2.
  exists s1, s2. split; [done|]. split; [done|]. split; [done|].
  assert (Hin : registry s2 !! ("smart-" +:+ id) = Some w').
  { rewrite Hr2. apply lookup_insert_eq. }
  split; [done|]. by apply find_taken.
Qed.

Lemma destroy_then_attach_succeeds_witness :
  ∃ s1 s2, destroy 0 Scenario.page_A_B = Return tt s1
           ∧ registry s1 !! "smart-btn1" = None
           ∧ attach 1 Scenario.btn1 false s1 = Return (VWidget 1) s2
           ∧ registry s2 !! "smart-btn1" = Some 1
           ∧ find "smart-btn1" s2 = VWidget 1.
Proof.
  apply (destroy_then_attach_succeeds Scenario.page_A_B 0 (Widget [0] [1] [2] [3])
           "btn1" 1 _ (TargetElement (Some "btn1") "10px" "40px")).
  - reflexivity.
  - reflexivity.
  - reflexivity.
  - discriminate.
  - by eexists.
  - reflexivity.
  - reflexivity.
Defined.

(** How the state that C9 speaks of comes about: on a page built from
    plain text and safe identifiers, when the document holds exactly one
    container [c] for a registered key and A holds it, [attach] with
    [overwrite] leaves B registered under the key, with A and B both
    holding [c], which still carries the key. *)
Lemma overwrite_shares_container
    (s : state) (a b : wid) (A : widget)
    (els : list target_element) (t0 : target_element) (id : string) (c : ref) :
  plain_reachable s →
  widgets s !! a = Some A →
  is_Some (widgets s !! b) →
  head els = Some t0 → t_id t0 = Some id → id ≠ "" → selector_safe id = true →
  is_Some (registry s !! ("smart-" +:+ id)) →
  wrapper A = [c] →
  select_div_data_id ("smart-" +:+ id) (doc s) = [c] →
  ∃ s1 A' B',
    attach b (Target els) true s = Return (VWidget b) s1
    ∧ widgets s1 !! b = Some B' ∧ wrapper B' = [c]
    ∧ widgets s1 !! a = Some A' ∧ wrapper A' = [c]
    ∧ registry s1 !! ("smart-" +:+ id) = Some b
    ∧ attr_data_id [c] (doc s1) = Some ("smart-" +:+ id).
Proof.
  intros _ Ha Hb Hh Hid Hne _ Hk HA Hsel.
  pose proof (attach_overwrite_spec s b els (Some id) Hb) as Hatt.
  rewrite Hh in Hatt. simpl in Hatt. rewrite Hid in Hatt.
  specialize (Hatt eq_refl). rewrite Hsel in Hatt.
  assert (Hnes : Some id ≠ Some "") by congruence.
  specialize (Hatt Hnes Hk).
  set (s1 := State _ _ _) in Hatt.
  assert (Hltb : b < length (widgets s)).
  { destruct Hb as [Bo Hb]. by eapply lookup_lt_Some. }
  assert (HA' : ∃ A', widgets s1 !! a = Some A' ∧ wrapper A' = [c]).
  { destruct (decide (a = b)) as [->|Hab].
    - eexists. split; [by apply list_lookup_insert_eq|done].
    - exists A. split; [|done]. simpl. by rewrite list_lookup_insert_ne. }
  destruct HA' as (A' & HwA' & HwrA').
  exists s1, A'. eexists.
  split; [exact Hatt|].
  split; [by apply list_lookup_insert_eq|]. split; [done|].
  split; [done|]. split; [done|].
  split; [simpl; apply lookup_insert_eq|].
  transitivity (attr_data_id [c] (doc s)).
  - apply attr_data_id_ext. intros r. by apply set_html_keeps.
  - assert (Hc : c ∈ select_div_data_id ("smart-" +:+ id) (doc s)).
    { rewrite Hsel. by left. }
    apply select_div_data_id_spec in Hc as (_ & e & He & _ & Hdata).
    unfold attr_data_id, first. simpl. rewrite He. simpl. by rewrite Hdata.
Qed.

(** C9. [destroy()] deletes the registry entry named by the data-id the
    widget's container carries, and takes the container out of the
    document.  So when [attach] with [overwrite] has left a widget B
    registered under a key and holding the container [c] that carries the
    key, and the superseded widget A still holds [c], then [A.destroy()]
    takes the shared container out of the document and deletes the entry
    of the key, which was B's: [find] no longer yields B, while B still
    holds [c]. *)
Theorem destroy_of_superseded_widget (s : state) (a : wid) (A : widget) :
  widgets s !! a = Some A →
  ∃ s1, destroy a s = Return tt s1
        ∧ registry s1
          = delete (to_string (attr_data_id (wrapper A) (doc s))) (registry s)
        ∧ (∀ c, c ∈ wrapper A → c ∉ in_document (doc s1))
        ∧ ∀ (b : wid) (B : widget) (key : string) (c : ref),
            widgets s !! b = Some B →
            wrapper A = [c] → wrapper B = [c] →
            attr_data_id [c] (doc s) = Some key →
            registry s !! key = Some b →
            find key s = VWidget b
            ∧ find key s1 = VFalse
            ∧ registry s1 = delete key (registry s)
            ∧ (c ∉ in_document (doc s1))
            ∧ widgets s1 !! b = Some B.
Proof.
  intros Ha.
  destruct (destroy_spec s a A Ha) as (s1 & Hd & Hr & Hws & Hdoc).
  exists s1. do 3 (split; [done|]).
  intros b B key c Hb HA HB Hattr Hk.
  rewrite HA, Hattr in Hr. simpl in Hr.
  split; [by apply find_taken|].
  split; [apply find_free; rewrite Hr; apply lookup_delete_eq|].
  split; [done|].
  split; [apply Hdoc; rewrite HA; by left|].
  by rewrite Hws.
Qed.

Lemma destroy_of_superseded_widget_witness :
  let s := after (attach 1 Scenario.btn1 true Scenario.page_A_B) in
  widgets s !! 0 = Some (Widget [0] [1] [2] [3])
  ∧ widgets s !! 1 = Some (Widget [0] [1] [2] [3])
  ∧ attr_data_id [0] (doc s) = Some "smart-btn1"
  ∧ registry s !! "smart-btn1" = Some 1
  ∧ ∃ s1, destroy 0 s = Return tt s1
          ∧ registry s1 = delete "smart-btn1" (registry s)
          ∧ find "smart-btn1" s = VWidget 1
          ∧ find "smart-btn1" s1 = VFalse
          ∧ (0 ∉ in_document (doc s1))
          ∧ widgets s1 !! 1 = Some (Widget [0] [1] [2] [3]).
Proof.
  intros s. do 4 (split; [reflexivity|]).
  destruct (destroy_of_superseded_widget s 0 (Widget [0] [1] [2] [3]) eq_refl)
    as (s1 & Hd & Hr & _ & Hshared).
  destruct (Hshared 1 (Widget [0] [1] [2] [3]) "smart-btn1" 0
              eq_refl eq_refl eq_refl eq_refl eq_refl)
    as (Hf & Hf1 & Hr1 & Hdoc & Hb).
  exists s1. by repeat split.
Defined.

End Lifecycle.

(** ** What the widget displays *)

Module Display.
Import Dom SmartStatus Run DomFacts Invariant.

(** A call that touches nothing but requested transitions changes no
    message, no indicator, no lookup and no membership in the document. *)
Lemma fades_leave_views (s s1 : state) :
  registry s1 = registry s → widgets s1 = widgets s →
  same_but_fx (doc s) (doc s1) →
  (∀ k, find k s1 = find k s)
  ∧ (∀ w, msg w s1 = msg w s)
  ∧ (∀ w, shown_indicator w s1 = shown_indicator w s)
  ∧ in_document (doc s1) = in_document (doc s).
Proof.
  intros Hr Hw Hd. split; [|split; [|split]].
  - intros k. unfold find. by rewrite Hr.
  - intros w. unfold msg, html. rewrite Hw.
    destruct (widgets s !! w) as [this|]; [|done]. simpl.
    apply same_but_fx_first; [|done].
    unfold content. intros e e' He. by simplify_eq.
  - intros w. unfold shown_indicator. rewrite Hw.
    destruct (widgets s !! w) as [this|]; [|done]. simpl.
    rewrite (same_but_fx_first classes (spinner this) (doc s) (doc s1)); [done| |done].
    unfold content. intros e e' He. by simplify_eq.
  - by apply same_but_fx_in_document.
Qed.

(** C7. [hide(d)] returns the widget and changes neither the registry, nor
    any message, nor any indicator (the classes of every element stay as
    they are), nor what is in the document: it requests a fade-out on the
    elements of the container, and nothing else.  The duration of that
    fade-out is 1500 when [d] is left out. *)
Theorem hide_changes_only_visibility
    (s : state) (w : wid) (this : widget) (duration : option Dom.duration) :
  widgets s !! w = Some this →
  ∃ s1, hide w duration s = Return (VWidget w) s1
        ∧ registry s1 = registry s
        ∧ widgets s1 = widgets s
        ∧ (∀ k, find k s1 = find k s)
        ∧ (∀ w', msg w' s1 = msg w' s)
        ∧ (∀ w', shown_indicator w' s1 = shown_indicator w' s)
        ∧ (∀ r, classes <$> elems (doc s1) !! r = classes <$> elems (doc s) !! r)
        ∧ in_document (doc s1) = in_document (doc s)
        ∧ (∀ r, r ∈ wrapper this → is_Some (elems (doc s) !! r) →
             fx <$> elems (doc s1) !! r
             = Some (Some (FadeOut (hide_duration duration))))
        ∧ hide w None s
          = Return (VWidget w) (on_doc (fadeOut (Ms 1500) (wrapper this)) s).
Proof.
  intros Hw. unfold hide. rewrite Hw. eexists. split; [done|]. simpl.
  pose proof (fade_same_but_fx (FadeOut (hide_duration duration))
                (wrapper this) (doc s)) as Hsame.
  destruct (fades_leave_views s
              (on_doc (fadeOut (hide_duration duration) (wrapper this)) s))
    as (Hf & Hm & Hi & Hdoc); [done|done|done|].
  split; [done|]. split; [done|]. split; [done|]. split; [done|].
  split; [done|]. split.
  { intros r. by apply each_keeps. }
  split; [done|]. split.
  { intros r Hr He. by apply each_sets. }
  done.
Qed.

Lemma hide_changes_only_visibility_witness :
  let s := Scenario.page_A_failed in
  ∃ s1, hide 0 None s = Return (VWidget 0) s1
        ∧ registry s1 = registry s
        ∧ widgets s1 = widgets s
        ∧ (∀ k, find k s1 = find k s)
        ∧ (∀ w', msg w' s1 = msg w' s)
        ∧ (∀ w', shown_indicator w' s1 = shown_indicator w' s)
        ∧ (∀ r, classes <$> elems (doc s1) !! r = classes <$> elems (doc s) !! r)
        ∧ in_document (doc s1) = in_document (doc s)
        ∧ (∀ r, r ∈ [0] → is_Some (elems (doc s) !! r) →
             fx <$> elems (doc s1) !! r
             = Some (Some (FadeOut (hide_duration None))))
        ∧ hide 0 None s
          = Return (VWidget 0) (on_doc (fadeOut (Ms 1500) [0]) s).
Proof.
  apply (hide_changes_only_visibility Scenario.page_A_failed 0
           (Widget [0] [1] [2] [3]) None).
  reflexivity.
Defined.

(** [duration ? duration : 1500] also takes 1500 for the number 0. *)
Example hide_duration_examples :
  hide_duration None = Ms 1500
  ∧ hide_duration (Some (Ms 0)) = Ms 1500
  ∧ hide_duration (Some (Ms 200)) = Ms 200
  ∧ hide_duration (Some Slow) = Slow.
Proof. done. Qed.

(** The parent that [parent_of] names is in the store. *)
Lemma parent_of_elem d r p : parent_of d r = Some (Elem p) → is_Some (elems d !! p).
Proof.
  unfold parent_of. destruct (decide (r ∈ body d)); [done|].
  destruct (list_find _ _) as [[i e]|] eqn:Hf; [|done].
  intros [= <-]. apply list_find_Some in Hf as (He & _). by eexists.
Qed.

(** C8, at a widget that was destroyed and attached again.  The
    constructor binds the handler that fades the container out, and on
    the page where A was attached once the click does that.  After
    [A.destroy(); A.attach($('#btn1'))] the widget is attached again,
    registered and in the document, but the click on its close control
    requests no fade-out and leaves the state as it is: [destroy] goes
    through jQuery's [remove()], which unbinds the handler, and [attach]
    does not bind it again. *)
Theorem dismiss_dead_after_reattach :
  let s0 := Scenario.page_A in
  let s := Scenario.page_A_reattached in
  (find "smart-btn1" s0 = VWidget 0
   ∧ widgets s0 !! 0 = Some (Widget [0] [1] [2] [3])
   ∧ on_click <$> elems (doc s0) !! 3 = Some true
   ∧ fx <$> elems (doc (user_click 3 s0)) !! 0 = Some (Some (FadeOut Slow)))
  ∧ find "smart-btn1" s = VWidget 0
  ∧ widgets s !! 0 = Some (Widget [0] [1] [2] [3])
  ∧ in_document (doc s) = [0; 1; 2; 3]
  ∧ parent_of (doc s) 3 = Some (Elem 0)
  ∧ on_click <$> elems (doc s) !! 3 = Some false
  ∧ user_click 3 s = s
  ∧ fx <$> elems (doc (user_click 3 s)) !! 0 = Some None.
Proof. by vm_compute. Qed.

(** X16. On a page built from plain text and safe identifiers, a click on
    the close control of a widget changes neither the registry (every
    [find] answers as before), nor any message or indicator, nor what is
    in the document, so it never does what [destroy()] does.  The control
    sits in a container of the widget; the click requests a slow fade-out
    on that container when the click handler bound by the constructor is
    on the control, and changes nothing when it is not. *)
Theorem close_click_only_fades
    (s : state) (w : wid) (this : widget) (c : ref) :
  plain_reachable s →
  widgets s !! w = Some this →
  c ∈ close_btn this →
  let s1 := user_click c s in
  registry s1 = registry s
  ∧ widgets s1 = widgets s
  ∧ (∀ k, find k s1 = find k s)
  ∧ (∀ w', msg w' s1 = msg w' s)
  ∧ (∀ w', shown_indicator w' s1 = shown_indicator w' s)
  ∧ in_document (doc s1) = in_document (doc s)
  ∧ ∃ p, p ∈ wrapper this
         ∧ parent_of (doc s) c = Some (Elem p)
         ∧ (on_click <$> elems (doc s) !! c = Some true →
            fx <$> elems (doc s1) !! p = Some (Some (FadeOut Slow)))
         ∧ (on_click <$> elems (doc s) !! c = Some false → s1 = s).
Proof.
  intros Hreach Hw Hc s1.
  destruct (fades_leave_views s s1) as (Hf & Hm & Hi & Hdoc);
    [done|done|apply click_same_but_fx|].
  do 6 (split; [done|]).
  destruct (close_control_parent s w this c) as [Hp Hin];
    [by apply plain_reachable_wf|done|done|].
  exists (c - 3). split; [done|]. split; [done|]. split.
  - intros Hon. subst s1. simpl. unfold click.
    destruct (elems (doc s) !! c) as [e|]; [|done].
    injection Hon as ->. rewrite Hp. apply each_sets; [done|by left|].
    by eapply parent_of_elem.
  - intros Hoff. subst s1. unfold user_click, on_doc, click.
    destruct (elems (doc s) !! c) as [e|]; [|by destruct s].
    injection Hoff as ->. by destruct s.
Qed.

Lemma close_click_only_fades_witness :
  let s := Scenario.page_A in
  let s1 := user_click 3 s in
  on_click <$> elems (doc s) !! 3 = Some true
  ∧ registry s1 = registry s
  ∧ widgets s1 = widgets s
  ∧ (∀ k, find k s1 = find k s)
  ∧ (∀ w', msg w' s1 = msg w' s)
  ∧ (∀ w', shown_indicator w' s1 = shown_indicator w' s)
  ∧ in_document (doc s1) = in_document (doc s)
  ∧ parent_of (doc s) 3 = Some (Elem 0)
  ∧ fx <$> elems (doc s1) !! 0 = Some (Some (FadeOut Slow)).
Proof.
  intros s s1. split; [reflexivity|].
  destruct (close_click_only_fades Scenario.page_A 0 (Widget [0] [1] [2] [3]) 3)
    as (Hr & Hws & Hf & Hm & Hi & Hdoc & p & Hp & Hpar & Hon & _).
  - apply (plain_reachable_run _ (CallNew (Some "Uploading") Scenario.btn1));
      [apply plain_reachable_initial|reflexivity].
  - reflexivity.
  - by left.
  - do 6 (split; [done|]). split; [reflexivity|]. reflexivity.
Defined.

(** On the page with A attached to #btn1 the premises about the control
    hold: the click fades out the container and A stays registered. *)
Example dismiss_on_page_A :
  let s := Scenario.page_A in
  on_click <$> elems (doc s) !! 3 = Some true
  ∧ parent_of (doc s) 3 = Some (Elem 0)
  ∧ fx <$> elems (doc (user_click 3 s)) !! 0 = Some (Some (FadeOut Slow))
  ∧ find "smart-btn1" (user_click 3 s) = VWidget 0.
Proof. by vm_compute. Qed.

Lemma msg_unfold (s : state) (w : wid) (this : widget) :
  widgets s !! w = Some this → msg w s = html (banner this) (doc s).
Proof. unfold msg. by intros ->. Qed.

Lemma shown_indicator_unfold (s : state) (w : wid) (this : widget) :
  widgets s !! w = Some this →
  shown_indicator w s = first classes (spinner this) (doc s) ≫= indicator_of.
Proof. unfold shown_indicator. by intros ->. Qed.

Lemma first_single {A} (g : element → A) (r : ref) (d : document) :
  first g [r] d = g <$> elems d !! r.
Proof. done. Qed.

(** The classes [final] leaves on an icon that carried no outcome class. *)
Lemma classes_after_final (cs : list string) (success : bool) :
  "fa-check" ∉ cs → "fa-exclamation-triangle" ∉ cs →
  let c := if success then "fa-check" else "fa-exclamation-triangle" in
  let cs' := filter (λ x, x ≠ "fa-spin") (filter (λ x, x ≠ "fa-spinner") cs) in
  (c ∉ cs')
  ∧ indicator_of (cs' ++ [c]) = Some (if success then Success else Failure)
  ∧ spinning (cs' ++ [c]) = false.
Proof.
  intros Hc Ht c cs'.
  assert (Hsub : ∀ x, x ∈ cs' → x ∈ cs ∧ x ≠ "fa-spinner" ∧ x ≠ "fa-spin").
  { intros x [? [? ?]%list_elem_of_filter]%list_elem_of_filter. done. }
  assert (Hin : ∀ x, x ∈ cs' ++ [c] ↔ x ∈ cs' ∨ x = c).
  { intros x. rewrite elem_of_app, list_elem_of_singleton. done. }
  assert (Hnc : c ∉ cs').
  { intros [Hx _]%Hsub. subst c. by destruct success. }
  split; [done|]. unfold indicator_of, spinning.
  rewrite (bool_decide_eq_false_2 ("fa-spinner" ∈ cs' ++ [c])).
  2:{ rewrite Hin. intros [[_ [? _]]%Hsub|Heq]; [done|].
      subst c. by destruct success. }
  rewrite (bool_decide_eq_false_2 (_ ∨ _)).
  2:{ rewrite !Hin. intros [[[_ [? _]]%Hsub|Heq]|[[_ [_ ?]]%Hsub|Heq]];
        try done; subst c; by destruct success. }
  destruct success; subst c.
  - rewrite (bool_decide_eq_true_2 ("fa-check" ∈ _)) by (rewrite Hin; by right).
    rewrite (bool_decide_eq_false_2 ("fa-exclamation-triangle" ∈ _)); [done|].
    rewrite Hin. intros [[? _]%Hsub|?]; done.
  - rewrite (bool_decide_eq_false_2 ("fa-check" ∈ _)).
    2:{ rewrite Hin. intros [[? _]%Hsub|?]; done. }
    rewrite (bool_decide_eq_true_2 ("fa-exclamation-triangle" ∈ _));
      [done|rewrite Hin; by right].
Qed.

(** [final] on a widget with one icon element that carries no outcome
    class (as built by the constructor, or after [reset()]) and one banner
    element: the message is the text, the indicator is the outcome asked
    for, the spinner styling is gone, and the widget is returned. *)
Lemma final_on_plain_icon
    (s : state) (w : wid) (this : widget) (sp bn : ref) (e : element)
    (t : string) (success : bool) :
  widgets s !! w = Some this →
  spinner this = [sp] → banner this = [bn] →
  elems (doc s) !! sp = Some e → is_Some (elems (doc s) !! bn) →
  "fa-check" ∉ classes e → "fa-exclamation-triangle" ∉ classes e →
  ∃ s1, final w (Some t) success s = Return (VWidget w) s1
        ∧ msg w s1 = Some t
        ∧ shown_indicator w s1 = Some (if success then Success else Failure)
        ∧ first (λ e, spinning (classes e)) [sp] (doc s1) = Some false
        ∧ registry s1 = registry s.
Proof.
  intros Hw Hsp Hbn He Heb Hc Ht.
  destruct (classes_after_final (classes e) success Hc Ht) as (Hnc & Hind & Hspin).
  set (c := if success then "fa-check" else "fa-exclamation-triangle") in *.
  set (cs' := filter _ (filter _ (classes e))) in *.
  set (d2 := removeClass "fa-spin" [sp] (removeClass "fa-spinner" [sp] (doc s))).
  set (d3 := set_html (Some t) [bn] d2).
  assert (Hl2 : length (elems d2) = length (elems (doc s))).
  { subst d2. unfold removeClass. by rewrite !each_length. }
  assert (Hcs : classes <$> elems d3 !! sp = Some cs').
  { subst d3. unfold set_html. rewrite each_keeps by done. subst d2.
    unfold removeClass, each. simpl.
    rewrite !list_lookup_alter_eq, He. done. }
  assert (Hin : inner <$> elems d3 !! bn = Some t).
  { subst d3. unfold set_html. apply each_sets; [done|by left|].
    rewrite lookup_lt_is_Some in *. by rewrite Hl2. }
  assert (Hfinal : final w (Some t) success s
                   = Return (VWidget w) (on_doc (λ _, addClass c [sp] d3) s)).
  { unfold final. rewrite Hw, Hsp, Hbn. subst c. by destruct success. }
  eexists. split; [exact Hfinal|]. clear Hl2. clearbody d3.
  assert (Hadd : classes <$> elems (addClass c [sp] d3) !! sp = Some (cs' ++ [c])).
  { unfold addClass, each. simpl. rewrite list_lookup_alter_eq.
    destruct (elems d3 !! sp) as [e3|]; [|done]. simpl in *.
    injection Hcs as Hcs. rewrite Hcs.
    destruct (decide (c ∈ cs')); [done|]. done. }
  split; [|split; [|split; [|done]]].
  - rewrite (msg_unfold _ w this) by done. rewrite Hbn. unfold html.
    rewrite first_single. change (doc (on_doc _ s)) with (addClass c [sp] d3).
    rewrite <- Hin. unfold addClass. apply each_keeps.
    intros e0. by destruct (decide _).
  - rewrite (shown_indicator_unfold _ w this) by done. rewrite Hsp.
    rewrite first_single. change (doc (on_doc _ s)) with (addClass c [sp] d3).
    rewrite Hadd. done.
  - rewrite first_single. change (doc (on_doc _ s)) with (addClass c [sp] d3).
    destruct (elems (addClass c [sp] d3) !! sp) as [e4|]; [|done].
    simpl in *. injection Hadd as ->. by rewrite Hspin.
Qed.

(** C6, at a widget whose last outcome was a failure: after
    [final('Upload failed', false)], the call [final('Done', true)] returns
    the widget and sets the message, but the icon element keeps the class
    of the failure icon next to the one of the success icon, so the
    indicator is not the success icon. *)
Theorem final_success_after_failure :
  let s := Scenario.page_A_failed in
  shown_indicator 0 s = Some Failure
  ∧ ∃ s1, final 0 (Some "Done") true s = Return (VWidget 0) s1
          ∧ msg 0 s1 = Some "Done"
          ∧ first classes [1] (doc s1)
            = Some ["fa"; "fa-exclamation-triangle"; "fa-check"]
          ∧ shown_indicator 0 s1 = None
          ∧ shown_indicator 0 s1 ≠ Some Success.
Proof.
  split; [reflexivity|]. eexists. split; [reflexivity|]. by vm_compute.
Qed.

End Display.

(** ** Further behaviour of the class *)

Module Behaviour.
Import Dom SmartStatus Run DomFacts Invariant Lifecycle Display.

#[local] Ltac Zify.zify_post_hook ::= Z.div_mod_to_equations.

(** *** Helpers *)

Lemma refs_in_store q k d r : refs_in q k d → r ∈ q → is_Some (elems d !! r).
Proof. intros Hq Hr. apply lookup_lt_is_Some. by destruct (Hq r Hr). Qed.

Lemma first_sets {A} (g : element → A) (v : A) (q : list nat) (d : document) :
  q ≠ [] → (∀ r, r ∈ q → g <$> elems d !! r = Some v) → first g q d = Some v.
Proof.
  intros Hq Hall. unfold first. destruct q as [|r q]; [done|]. simpl.
  apply Hall. by left.
Qed.

(** The part of an element fixes its children, so two documents of the
    same size that both have the shape agree on every child list. *)
Lemma shaped_children_eq r e e' : shaped r e → shaped r e' → children e = children e'.
Proof.
  intros (H0 & H1 & H2 & H3) (H0' & H1' & H2' & H3').
  assert (Hk : r mod 4 = 0 ∨ r mod 4 = 1 ∨ r mod 4 = 2 ∨ r mod 4 = 3) by lia.
  destruct Hk as [Hk|[Hk|[Hk|Hk]]].
  - destruct (H0 Hk) as [_ ->]. by destruct (H0' Hk) as [_ ->].
  - destruct (H1 Hk) as (_ & -> & _). by destruct (H1' Hk) as (_ & -> & _).
  - destruct (H2 Hk) as (_ & -> & _). by destruct (H2' Hk) as (_ & -> & _).
  - destruct (H3 Hk) as (_ & -> & _). by destruct (H3' Hk) as (_ & -> & _).
Qed.

Lemma wf_same_in_document d d' :
  wf_document d → wf_document d' →
  length (elems d') = length (elems d) → body d' = body d →
  in_document d' = in_document d.
Proof.
  intros (_ & Hs & _) (_ & Hs' & _) Hl Hb. apply in_document_ext; [done|done|].
  intros x. destruct (elems d' !! x) as [e'|] eqn:He'.
  - destruct (lookup_lt_is_Some_2 (elems d) x) as [e He].
    { rewrite <- Hl. by eapply lookup_lt_Some. }
    rewrite He. simpl. f_equal. eapply shaped_children_eq; [by apply Hs'|by apply Hs].
  - apply lookup_ge_None in He'. rewrite Hl in He'.
    apply lookup_ge_None in He'. by rewrite He'.
Qed.

Lemma set_html_body v q d : body (set_html v q d) = body d.
Proof. by destruct v. Qed.

Lemma set_msg_registry w v s : registry (set_msg w v s) = registry s.
Proof. unfold set_msg. by destruct (widgets s !! w). Qed.

Lemma set_msg_body w v s : body (doc (set_msg w v s)) = body (doc s).
Proof. unfold set_msg. destruct (widgets s !! w); [apply set_html_body|done]. Qed.

Lemma set_msg_keeps {A} (g : element → A) w v s r :
  (∀ str e, g (with_inner str e) = g e) →
  g <$> elems (doc (set_msg w v s)) !! r = g <$> elems (doc s) !! r.
Proof.
  intros Hg. unfold set_msg. destruct (widgets s !! w); [|done].
  by apply set_html_keeps.
Qed.

(** What [this.msg = str] makes of the message of the widget itself. *)
Lemma set_msg_msg s w this str :
  wf s → widgets s !! w = Some this → banner this ≠ [] →
  msg w (set_msg w (Some str) s) = Some str.
Proof.
  intros [_ Hws] Hw Hbn. destruct (Hws w this Hw) as (_ & _ & Hb & _).
  rewrite (msg_unfold _ w this) by by rewrite set_msg_widgets.
  unfold set_msg. rewrite Hw. apply first_sets; [done|].
  intros r Hr. apply each_sets; [done|done|]. by eapply refs_in_store.
Qed.

(** *** The calls that only change the display *)

Lemma each_frame f q s :
  registry (on_doc (each f q) s) = registry s
  ∧ widgets (on_doc (each f q) s) = widgets s
  ∧ body (doc (on_doc (each f q) s)) = body (doc s)
  ∧ length (elems (doc (on_doc (each f q) s))) = length (elems (doc s)).
Proof. repeat split. unfold on_doc. cbn [doc]. apply each_length. Qed.

Lemma set_msg_frame w v s :
  registry (set_msg w v s) = registry s
  ∧ widgets (set_msg w v s) = widgets s
  ∧ body (doc (set_msg w v s)) = body (doc s)
  ∧ length (elems (doc (set_msg w v s))) = length (elems (doc s)).
Proof.
  split; [apply set_msg_registry|]. split; [apply set_msg_widgets|].
  split; [apply set_msg_body|apply set_msg_length].
Qed.

Lemma display_call_frame c s :
  display_call c = true →
  registry (run c s) = registry s
  ∧ widgets (run c s) = widgets s
  ∧ body (doc (run c s)) = body (doc s)
  ∧ length (elems (doc (run c s))) = length (elems (doc s)).
Proof.
  destruct c as [| | |w|w txt|w duration|w txt success|w str|r]; try done; intros _;
    cbn [run].
  - unfold reset. destruct (widgets s !! w) as [this|]; [|done]. cbn [after].
    destruct (set_msg_frame w (Some "Loading...") s) as (Hr & Hw & Hb & Hl).
    destruct (each_frame (with_classes ["fa"; "fa-spinner"; "fa-spin"])
                (spinner this) (set_msg w (Some "Loading...") s))
      as (Hr' & Hw' & Hb' & Hl').
    unfold set_attr_class. rewrite Hr', Hw', Hb', Hl'. done.
  - unfold show. destruct (widgets s !! w) as [this|]; [|done]. cbn [after].
    set (s1 := if nonempty txt then set_msg w txt s else s).
    assert (Hs1 : registry s1 = registry s ∧ widgets s1 = widgets s
                  ∧ body (doc s1) = body (doc s)
                  ∧ length (elems (doc s1)) = length (elems (doc s))).
    { subst s1. destruct (nonempty txt); [apply set_msg_frame|done]. }
    destruct Hs1 as (Hr & Hw & Hb & Hl).
    destruct (each_frame (with_fx (FadeIn Slow)) (wrapper this) s1)
      as (Hr' & Hw' & Hb' & Hl').
    unfold fadeIn. rewrite Hr', Hw', Hb', Hl'. done.
  - unfold hide. destruct (widgets s !! w) as [this|]; [|done]. cbn [after].
    apply each_frame.
  - unfold final. destruct (widgets s !! w) as [this|]; [|done]. cbn [after].
    split; [by destruct success|]. split; [by destruct success|]. split.
    + destruct success; unfold on_doc; cbn [doc]; unfold addClass, removeClass;
        by rewrite each_body, set_html_body, !each_body.
    + destruct success; unfold on_doc; cbn [doc]; unfold addClass, removeClass;
        by rewrite each_length, set_html_length, !each_length.
  - apply set_msg_frame.
  - pose proof (click_same_but_fx r (doc s)) as (Hl & Hb & _). by repeat split.
Qed.

(** X10. On a page built from plain text and safe identifiers, [reset],
    [show], [hide], [final] and the [msg] setter, given plain text, and a
    click change no registry entry and no widget object, and they neither
    add an element to the document nor take one out. *)
Theorem display_calls_keep_registry_and_document (s : state) (c : call) :
  plain_reachable s → display_call c = true → plain_call c = true →
  registry (run c s) = registry s
  ∧ widgets (run c s) = widgets s
  ∧ (∀ k, find k (run c s) = find k s)
  ∧ in_document (doc (run c s)) = in_document (doc s).
Proof.
  intros Hreach Hc Hplain.
  destruct (display_call_frame c s Hc) as (Hr & Hw & Hb & Hl).
  split; [done|]. split; [done|]. split.
  - intros k. unfold find. by rewrite Hr.
  - apply wf_same_in_document; [| |done|done].
    + by destruct (plain_reachable_wf s Hreach).
    + by destruct (plain_reachable_wf _ (plain_reachable_run s c Hreach Hplain)).
Qed.

Lemma display_calls_keep_registry_and_document_witness :
  let s := Scenario.page_A in
  let c := CallFinal 0 (Some "Done") true in
  registry (run c s) = registry s
  ∧ widgets (run c s) = widgets s
  ∧ (∀ k, find k (run c s) = find k s)
  ∧ in_document (doc (run c s)) = in_document (doc s).
Proof.
  apply (display_calls_keep_registry_and_document Scenario.page_A
           (CallFinal 0 (Some "Done") true)).
  - apply scenario_pages_plain.
  - reflexivity.
  - reflexivity.
Defined.

(** X1. On a page the library has built, [reset()] returns the widget and,
    whatever the widget showed before, leaves it with the message
    "Loading..." (when it has a banner element) and the spinner as its
    indicator (when it has an icon element). *)
Theorem reset_restores_loading (s : state) (w : wid) (this : widget) :
  reachable s → widgets s !! w = Some this →
  ∃ s1, reset w s = Return (VWidget w) s1
        ∧ (banner this ≠ [] → msg w s1 = Some "Loading...")
        ∧ (spinner this ≠ [] → shown_indicator w s1 = Some Loading)
        ∧ (∀ r, r ∈ spinner this →
             classes <$> elems (doc s1) !! r = Some ["fa"; "fa-spinner"; "fa-spin"]).
Proof.
  intros Hreach Hw. pose proof (reachable_wf s Hreach) as [Hd Hws].
  destruct (Hws w this Hw) as (_ & Hsp & Hbn & _).
  unfold reset. rewrite Hw. eexists. split; [done|].
  set (s' := set_msg w (Some "Loading...") s).
  assert (Hw' : widgets (on_doc (set_attr_class ["fa"; "fa-spinner"; "fa-spin"]
                                   (spinner this)) s') !! w = Some this).
  { cbn [widgets on_doc]. subst s'. by rewrite set_msg_widgets. }
  assert (Hcls : ∀ r, r ∈ spinner this →
            classes <$> elems (doc (on_doc (set_attr_class
                         ["fa"; "fa-spinner"; "fa-spin"] (spinner this)) s')) !! r
            = Some ["fa"; "fa-spinner"; "fa-spin"]).
  { intros r Hr. unfold on_doc. cbn [doc]. unfold set_attr_class.
    apply each_sets; [done|done|]. apply lookup_lt_is_Some.
    subst s'. rewrite set_msg_length. by destruct (Hsp r Hr). }
  split; [|split; [|done]].
  - intros Hne. rewrite (msg_unfold _ w this Hw'). apply first_sets; [done|].
    intros r Hr. unfold on_doc. cbn [doc]. unfold set_attr_class.
    rewrite each_keeps by done. subst s'. unfold set_msg. rewrite Hw.
    unfold on_doc. cbn [doc]. apply each_sets; [done|done|].
    by eapply refs_in_store.
  - intros Hne. rewrite (shown_indicator_unfold _ w this Hw').
    by rewrite (first_sets classes ["fa"; "fa-spinner"; "fa-spin"] _ _ Hne Hcls).
Qed.

Lemma reset_restores_loading_witness :
  ∃ s1, reset 0 Scenario.page_A_failed = Return (VWidget 0) s1
        ∧ ([2] ≠ [] → msg 0 s1 = Some "Loading...")
        ∧ ([1] ≠ [] → shown_indicator 0 s1 = Some Loading)
        ∧ (∀ r, r ∈ [1] →
             classes <$> elems (doc s1) !! r = Some ["fa"; "fa-spinner"; "fa-spin"]).
Proof.
  apply (reset_restores_loading Scenario.page_A_failed 0 (Widget [0] [1] [2] [3])).
  - apply scenario_pages_reachable.
  - reflexivity.
Defined.

(** X2. On a page built from plain text and safe identifiers, [show(txt)]
    returns the widget and requests a slow fade-in on its container.  A
    plain text that is given and not empty becomes the message; with the
    text left out or empty the message stays as it is.  The indicator is
    not touched. *)
Theorem show_sets_message_when_given
    (s : state) (w : wid) (this : widget) (txt : option string) :
  plain_reachable s → widgets s !! w = Some this → plain_text txt = true →
  ∃ s1, show w txt s = Return (VWidget w) s1
        ∧ (∀ p, p ∈ wrapper this →
             fx <$> elems (doc s1) !! p = Some (Some (FadeIn Slow)))
        ∧ (nonempty txt = false → msg w s1 = msg w s)
        ∧ (nonempty txt = true → banner this ≠ [] → msg w s1 = txt)
        ∧ shown_indicator w s1 = shown_indicator w s.
Proof.
  intros Hreach Hw _. pose proof (plain_reachable_wf s Hreach) as Hwf.
  pose proof Hwf as [Hd Hws]. destruct (Hws w this Hw) as (Hwr & _).
  unfold show. rewrite Hw. eexists. split; [done|].
  set (s' := if nonempty txt then set_msg w txt s else s).
  assert (Hlen : length (elems (doc s')) = length (elems (doc s))).
  { subst s'. destruct (nonempty txt); [apply set_msg_length|done]. }
  assert (Hw' : widgets (on_doc (fadeIn Slow (wrapper this)) s') !! w = Some this).
  { cbn [widgets on_doc]. subst s'.
    destruct (nonempty txt); [by rewrite set_msg_widgets|done]. }
  assert (Hmsg : msg w (on_doc (fadeIn Slow (wrapper this)) s') = msg w s').
  { rewrite (msg_unfold _ w this Hw').
    rewrite (msg_unfold s' w this) by (by rewrite <- Hw').
    apply first_ext. intros r. unfold on_doc. cbn [doc]. by apply each_keeps. }
  split; [|split; [|split]].
  - intros p Hp. unfold on_doc. cbn [doc]. apply each_sets; [done|done|].
    apply lookup_lt_is_Some. rewrite Hlen. by destruct (Hwr p Hp).
  - intros Hno. rewrite Hmsg. subst s'. by rewrite Hno.
  - intros Hyes Hbn. rewrite Hmsg. subst s'. rewrite Hyes.
    destruct txt as [str|]; [|done]. by apply (set_msg_msg s w this).
  - rewrite (shown_indicator_unfold _ w this Hw').
    rewrite (shown_indicator_unfold s w this Hw). f_equal.
    apply first_ext. intros r. unfold on_doc. cbn [doc]. unfold fadeIn.
    rewrite each_keeps by done. subst s'.
    destruct (nonempty txt); [by apply set_msg_keeps|done].
Qed.

Lemma show_sets_message_when_given_witness :
  let s := Scenario.page_A in
  msg 0 s = Some "Uploading"
  ∧ ∃ s1, show 0 (Some "Saved") s = Return (VWidget 0) s1
          ∧ fx <$> elems (doc s1) !! 0 = Some (Some (FadeIn Slow))
          ∧ msg 0 s1 = Some "Saved"
          ∧ shown_indicator 0 s1 = shown_indicator 0 s.
Proof.
  intros s. split; [reflexivity|].
  destruct (show_sets_message_when_given Scenario.page_A 0
              (Widget [0] [1] [2] [3]) (Some "Saved"))
    as (s1 & Hs & Hfx & _ & Hmsg & Hind).
  - apply (plain_reachable_run _ (CallNew (Some "Uploading") Scenario.btn1));
      [apply plain_reachable_initial|reflexivity].
  - reflexivity.
  - reflexivity.
  - exists s1. split; [exact Hs|]. split; [apply Hfx; by left|].
    split; [apply Hmsg; [reflexivity|discriminate]|exact Hind].
Defined.

(** X3. On a page built from plain text and safe identifiers, for a
    widget with a banner element and a plain text [str]: after
    [this.msg = str] the getter returns [str]; every widget
    that holds the same banner elements (as after an [attach] with
    [overwrite]) then reads [str] too, a widget that shares no banner
    element reads what it read before; and assigning [undefined] changes
    nothing at all. *)
Theorem msg_set_then_get (s : state) (w : wid) (this : widget) (str : string) :
  plain_reachable s → widgets s !! w = Some this → banner this ≠ [] →
  plain str = true →
  let s1 := set_msg w (Some str) s in
  msg w s1 = Some str
  ∧ (∀ w' this', widgets s !! w' = Some this' → banner this' = banner this →
       msg w' s1 = Some str)
  ∧ (∀ w' this', widgets s !! w' = Some this' →
       (∀ r, r ∈ banner this' → r ∉ banner this) → msg w' s1 = msg w' s)
  ∧ set_msg w None s = s.
Proof.
  intros Hreach Hw Hbn _ s1. pose proof (plain_reachable_wf s Hreach) as Hwf.
  assert (Hself : msg w s1 = Some str) by by apply (set_msg_msg s w this).
  split; [done|]. split; [|split].
  - intros w' this' Hw' Heq.
    rewrite (msg_unfold s1 w this) in Hself by (subst s1; by rewrite set_msg_widgets).
    rewrite (msg_unfold s1 w' this') by (subst s1; by rewrite set_msg_widgets).
    by rewrite Heq.
  - intros w' this' Hw' Hdis.
    rewrite (msg_unfold s1 w' this') by (subst s1; by rewrite set_msg_widgets).
    rewrite (msg_unfold s w' this' Hw'). unfold html, first.
    destruct (head (banner this')) as [r|] eqn:Hh; [|done]. simpl.
    subst s1. unfold set_msg. rewrite Hw. unfold on_doc. cbn [doc].
    unfold set_html. rewrite each_notin; [done|].
    apply Hdis. by apply head_Some_elem_of.
  - unfold set_msg. rewrite Hw. by destruct s.
Qed.

Lemma msg_set_then_get_witness :
  let s := Scenario.page_A_B in
  let s1 := set_msg 0 (Some "Almost there") s in
  msg 0 s1 = Some "Almost there"
  ∧ (∀ w' this', widgets s !! w' = Some this' → banner this' = [2] →
       msg w' s1 = Some "Almost there")
  ∧ (∀ w' this', widgets s !! w' = Some this' →
       (∀ r, r ∈ banner this' → r ∉ [2]) → msg w' s1 = msg w' s)
  ∧ set_msg 0 None s = s.
Proof.
  apply (msg_set_then_get Scenario.page_A_B 0 (Widget [0] [1] [2] [3])
           "Almost there").
  - apply scenario_pages_plain.
  - reflexivity.
  - discriminate.
  - reflexivity.
Defined.

(** *** What the registry holds *)

Lemma wf_registry_same s s' :
  registry s' = registry s → (length (widgets s) ≤ length (widgets s'))%nat →
  wf_registry s → wf_registry s'.
Proof.
  intros Hr Hl Hs k w Hk. rewrite Hr in Hk. destruct (Hs k w Hk). split; [lia|done].
Qed.

Lemma wf_registry_insert s s' k w :
  registry s' = <[k := w]> (registry s) →
  (length (widgets s) ≤ length (widgets s'))%nat →
  w < length (widgets s') →
  (k = global_key ∨ ∃ id, id ≠ "" ∧ k = "smart-" +:+ id) →
  wf_registry s → wf_registry s'.
Proof.
  intros Hr Hl Hw Hkey Hs k' w' Hk. rewrite Hr in Hk.
  apply lookup_insert_Some in Hk as [[<- <-]|[_ Hk]]; [done|].
  destruct (Hs k' w' Hk). split; [lia|done].
Qed.

Lemma wf_registry_delete s s' k :
  registry s' = delete k (registry s) →
  (length (widgets s) ≤ length (widgets s'))%nat →
  wf_registry s → wf_registry s'.
Proof.
  intros Hr Hl Hs k' w' Hk. rewrite Hr in Hk.
  apply lookup_delete_Some in Hk as [_ Hk].
  destruct (Hs k' w' Hk). split; [lia|done].
Qed.

Lemma to_string_nonempty (v : option string) : v ≠ Some "" → to_string v ≠ "".
Proof. destruct v as [x|]; simpl; [congruence|done]. Qed.

Lemma destroy_wf_registry w s : wf_registry s → wf_registry (after (destroy w s)).
Proof.
  intros Hs. destruct (widgets s !! w) as [this|] eqn:Hw.
  - destruct (destroy_spec s w this Hw) as (s1 & -> & Hr & Hws & _). simpl.
    eapply wf_registry_delete; [done| |done]. by rewrite Hws.
  - unfold destroy. by rewrite Hw.
Qed.

Lemma attach_wf_registry w tgt overwrite s :
  wf_registry s → wf_registry (after (attach w tgt overwrite s)).
Proof.
  intros Hs. unfold attach.
  destruct (widgets s !! w) as [this|] eqn:Hw; [|done].
  pose proof (lookup_lt_Some _ _ _ Hw) as Hlt.
  assert (Hpage : wf_registry (after (
            if negb (truthy (find global_key s)) then
              let s1 := on_doc (set_attr_data_id global_key (wrapper this)) s in
              let s2 := on_doc (appendTo_body (wrapper this)) s1 in
              Return (VWidget w) (set_registry (<[global_key := w]> (registry s2)) s2)
            else Return VFalse s))).
  { destruct (negb _); [|done]. simpl.
    eapply (wf_registry_insert s); [done|done|done|by left|done]. }
  destruct tgt as [| |els]; [done|done|]. clear Hpage.
  destruct (decide (head els ≫= t_id = Some "")) as [|Hne].
  { pose proof (destroy_wf_registry w s Hs) as Hd. by destruct (destroy w s). }
  assert (Hkey : "smart-" +:+ to_string (head els ≫= t_id) = global_key
                 ∨ ∃ id, id ≠ "" ∧ "smart-" +:+ to_string (head els ≫= t_id)
                                   = "smart-" +:+ id).
  { right. eexists. split; [|done]. by apply to_string_nonempty. }
  destruct (negb (truthy (find _ s))).
  - destruct (head els) as [t0|]; [|done]. simpl.
    eapply (wf_registry_insert s); [done|done|done|done|done].
  - destruct overwrite; [|done]. cbn [after].
    eapply (wf_registry_insert s); [| | |exact Hkey|done].
    + cbn [registry set_registry]. by rewrite set_msg_registry.
    + cbn [widgets set_registry]. rewrite set_msg_widgets. cbn [widgets set_widget].
      by rewrite length_insert.
    + cbn [widgets set_registry]. rewrite set_msg_widgets. cbn [widgets set_widget].
      by rewrite length_insert.
Qed.

Lemma constructed_wf_registry s : wf_registry s → wf_registry (constructed s).
Proof.
  apply wf_registry_same; [done|]. unfold constructed. cbn [widgets].
  rewrite length_app. lia.
Qed.

Lemma new_wf_registry txt tgt s :
  wf s → wf_registry s → wf_registry (after (new txt tgt s)).
Proof.
  intros Hwf Hs. rewrite new_constructed by done. cbv zeta.
  set (w := length (widgets s)).
  assert (Hs2 : wf_registry (if nonempty txt then set_msg w txt (constructed s)
                             else constructed s)).
  { pose proof (constructed_wf_registry s Hs) as Hc.
    destruct (nonempty txt); [|done].
    eapply wf_registry_same; [apply set_msg_registry| |done].
    by rewrite set_msg_widgets. }
  destruct tgt as [| |els]; [done| |].
  - pose proof (attach_wf_registry w DocumentBody false _ Hs2) as Ha.
    by destruct (attach w DocumentBody false _).
  - pose proof (attach_wf_registry w (Target els) false _ Hs2) as Ha.
    by destruct (attach w (Target els) false _).
Qed.

Lemma run_wf_registry c s : wf s → wf_registry s → wf_registry (run c s).
Proof.
  intros Hwf Hs. destruct (display_call c) eqn:Hc.
  - destruct (display_call_frame c s Hc) as (Hr & Hw & _).
    eapply wf_registry_same; [done| |done]. by rewrite Hw.
  - destruct c; try done; cbn [run].
    + by apply new_wf_registry.
    + by apply attach_wf_registry.
    + by apply destroy_wf_registry.
Qed.

Lemma reachable_wf_registry s : reachable s → wf_registry s.
Proof.
  induction 1 as [|s c Hreach IH]; [done|].
  apply run_wf_registry; [by apply reachable_wf|done].
Qed.

(** X9. On a page the library has built, every entry the library has made
    in the registry holds a widget object that exists, its key is the
    page-level key or ["smart-"] followed by a non-empty identifier, and
    [find] on that key yields that widget.  No entry is ever made under
    the bare ["smart-"] that a new container carries, so [find] answers
    [false] there. *)
Theorem registry_names_widgets (s : state) (k : string) (w : wid) :
  reachable s → registry s !! k = Some w →
  is_Some (widgets s !! w)
  ∧ (k = global_key ∨ ∃ id, id ≠ "" ∧ k = "smart-" +:+ id)
  ∧ find k s = VWidget w
  ∧ registry s !! "smart-" = None
  ∧ find "smart-" s = VFalse.
Proof.
  intros Hreach Hk. pose proof (reachable_wf_registry s Hreach) as Hs.
  destruct (Hs k w Hk) as [Hlt Hkey].
  split; [by apply lookup_lt_is_Some|]. split; [done|].
  split; [unfold find; by rewrite Hk|].
  assert (Hbare : registry s !! "smart-" = None).
  { destruct (registry s !! "smart-") as [w0|] eqn:Hbare; [|done].
    destruct (Hs _ _ Hbare) as [_ [Hg|(id & Hne & Hid)]]; [done|].
    exfalso. apply Hne. change ("smart-" +:+ "" = "smart-" +:+ id) in Hid.
    by apply smart_key_inj in Hid. }
  split; [done|]. unfold find. by rewrite Hbare.
Qed.

Lemma registry_names_widgets_witness :
  registry Scenario.page_A_moved_B !! "smart-btn1" = Some 0
  ∧ is_Some (widgets Scenario.page_A_moved_B !! 0)
  ∧ ("smart-btn1" = global_key ∨ ∃ id, id ≠ "" ∧ "smart-btn1" = "smart-" +:+ id)
  ∧ find "smart-btn1" Scenario.page_A_moved_B = VWidget 0
  ∧ registry Scenario.page_A_moved_B !! "smart-" = None
  ∧ find "smart-" Scenario.page_A_moved_B = VFalse.
Proof.
  split; [reflexivity|].
  apply (registry_names_widgets Scenario.page_A_moved_B "smart-btn1" 0).
  - apply scenario_pages_reachable.
  - reflexivity.
Defined.

(** *** The constructor *)

Lemma wf_in_document_body d d' :
  wf_document d → wf_document d' → body d' = body d →
  in_document d' = in_document d.
Proof.
  intros Hd Hd' Hb. rewrite (in_document_containers d Hd).
  rewrite (in_document_containers d' Hd'). by rewrite Hb.
Qed.

(** The state the constructor leaves when it attaches nothing. *)
Lemma new_unattached_state (s : state) (txt : option string) :
  wf s →
  let n := length (elems (doc s)) in
  let w := length (widgets s) in
  let s2 := if nonempty txt then set_msg w txt (constructed s) else constructed s in
  widgets s2 = widgets s ++ [Widget [n] [n + 1] [n + 2] [n + 3]]
  ∧ registry s2 = registry s
  ∧ body (doc s2) = body (doc s)
  ∧ wf s2
  ∧ (nonempty txt = false → msg w s2 = Some "Loading...")
  ∧ (nonempty txt = true → msg w s2 = txt)
  ∧ shown_indicator w s2 = Some Loading
  ∧ attr_data_id [n] (doc s2) = Some "smart-"
  ∧ (∀ w', w' < w → msg w' s2 = msg w' s
                    ∧ shown_indicator w' s2 = shown_indicator w' s).
Proof.
  intros Hwf n w s2. pose proof Hwf as [Hd Hws].
  pose proof (constructed_wf s Hwf) as Hcwf.
  assert (Hcw : widgets (constructed s) !! w
                = Some (Widget [n] [n + 1] [n + 2] [n + 3])).
  { unfold constructed. cbn [widgets]. rewrite lookup_app_r by done.
    subst w. by rewrite Nat.sub_diag. }
  assert (Hnew : ∀ j, elems (doc (constructed s)) !! (n + j) = fresh_block n !! j).
  { intros j. unfold constructed. cbn [doc elems].
    rewrite lookup_app_r by (fold n; lia). f_equal. fold n. lia. }
  assert (Hold : ∀ r, r < n →
            elems (doc (constructed s)) !! r = elems (doc s) !! r).
  { intros r Hr. unfold constructed. cbn [doc elems]. by apply lookup_app_l. }
  assert (Hs2w : widgets s2 = widgets (constructed s)).
  { subst s2. destruct (nonempty txt); [apply set_msg_widgets|done]. }
  assert (Hs2 : ∀ r, r ≠ n + 2 →
            elems (doc s2) !! r = elems (doc (constructed s)) !! r).
  { intros r Hr. subst s2. destruct (nonempty txt); [|done].
    unfold set_msg. rewrite Hcw. unfold on_doc. cbn [doc banner].
    destruct txt as [str|]; [|done]. unfold set_html. apply each_notin.
    by intros ->%list_elem_of_singleton. }
  assert (Hs2c : ∀ r, classes <$> elems (doc s2) !! r
                      = classes <$> elems (doc (constructed s)) !! r).
  { intros r. subst s2. destruct (nonempty txt); [|done]. by apply set_msg_keeps. }
  assert (Hs2d : ∀ r, data_id <$> elems (doc s2) !! r
                      = data_id <$> elems (doc (constructed s)) !! r).
  { intros r. subst s2. destruct (nonempty txt); [|done]. by apply set_msg_keeps. }
  assert (Hs2wf : wf s2).
  { subst s2. destruct (nonempty txt); [by apply set_msg_wf|done]. }
  split; [by rewrite Hs2w|]. split.
  { subst s2. destruct (nonempty txt); [by rewrite set_msg_registry|done]. }
  split.
  { subst s2. destruct (nonempty txt); [by rewrite set_msg_body|done]. }
  split; [done|].
  assert (Hs2this : widgets s2 !! w = Some (Widget [n] [n + 1] [n + 2] [n + 3]))
    by by rewrite Hs2w.
  split; [|split; [|split; [|split]]].
  - intros Hno. rewrite (msg_unfold _ _ _ Hs2this). cbn [banner].
    unfold html. rewrite first_single. subst s2. rewrite Hno. by rewrite Hnew.
  - intros Hyes. subst s2. rewrite Hyes. destruct txt as [str|]; [|done].
    by apply (set_msg_msg _ _ (Widget [n] [n + 1] [n + 2] [n + 3])).
  - rewrite (shown_indicator_unfold _ _ _ Hs2this). cbn [spinner].
    rewrite first_single, Hs2c, Hnew. done.
  - unfold attr_data_id. rewrite first_single.
    replace n with (n + 0) at 1 by lia. by rewrite Hs2d, Hnew.
  - intros w' Hw'. destruct (lookup_lt_is_Some_2 (widgets s) w' Hw') as [this' Hthis'].
    assert (Hthis2 : widgets s2 !! w' = Some this').
    { rewrite Hs2w. unfold constructed. cbn [widgets]. by apply lookup_app_l_Some. }
    destruct (Hws w' this' Hthis') as (_ & Hsp & Hbn & _).
    rewrite (msg_unfold _ _ _ Hthis2), (msg_unfold _ _ _ Hthis').
    rewrite (shown_indicator_unfold _ _ _ Hthis2),
            (shown_indicator_unfold _ _ _ Hthis').
    unfold html, first. split.
    + destruct (head (banner this')) as [r|] eqn:Hh; [|done]. simpl.
      apply head_Some_elem_of in Hh. destruct (Hbn r Hh) as [_ Hlt]. fold n in Hlt.
      rewrite Hs2 by lia. by rewrite Hold.
    + destruct (head (spinner this')) as [r|] eqn:Hh; [|done]. simpl.
      apply head_Some_elem_of in Hh. destruct (Hsp r Hh) as [_ Hlt]. fold n in Hlt.
      rewrite Hs2c. by rewrite Hold.
Qed.

(** What is in the document lies in the store the document was built
    from. *)
Lemma in_document_below d x : wf_document d → x ∈ in_document d → x < length (elems d).
Proof.
  intros Hd Hx. rewrite (in_document_containers d Hd) in Hx.
  apply list_elem_of_bind in Hx as (p & Hx & Hp).
  destruct Hd as (Hl & _ & Hb). destruct (Hb p Hp) as [Hk Hlt].
  repeat (apply elem_of_cons in Hx as [->|Hx]; [lia|]).
  by apply elem_of_nil in Hx.
Qed.

(** X4. On a page built from plain text and safe identifiers,
    [new SmartStatus(txt)] without target, [txt] being plain, returns a
    new widget object and touches nothing that was there: the registry,
    the document and what every other widget shows are as before.  The
    new widget is outside the document, shows the spinner, and its
    message is [txt] when that is given and not empty, "Loading..."
    otherwise. *)
Theorem new_without_target (s : state) (txt : option string) :
  plain_reachable s → plain_text txt = true →
  let w := length (widgets s) in
  ∃ s1, new txt Omitted s = Return w s1
        ∧ is_Some (widgets s1 !! w)
        ∧ registry s1 = registry s
        ∧ in_document (doc s1) = in_document (doc s)
        ∧ (length (elems (doc s)) ∉ in_document (doc s1))
        ∧ (nonempty txt = false → msg w s1 = Some "Loading...")
        ∧ (nonempty txt = true → msg w s1 = txt)
        ∧ shown_indicator w s1 = Some Loading
        ∧ (∀ w', w' < w → msg w' s1 = msg w' s
                          ∧ shown_indicator w' s1 = shown_indicator w' s).
Proof.
  intros Hreach _ w. pose proof (plain_reachable_wf s Hreach) as Hwf.
  destruct (new_unattached_state s txt Hwf)
    as (Hws & Hr & Hb & Hwf2 & Hno & Hyes & Hind & _ & Hold).
  fold w in Hws, Hr, Hb, Hwf2, Hno, Hyes, Hind, Hold.
  set (s2 := if nonempty txt then set_msg w txt (constructed s) else constructed s)
    in *.
  assert (Hdoc : in_document (doc s2) = in_document (doc s)).
  { apply wf_in_document_body; [apply Hwf|apply Hwf2|done]. }
  rewrite new_constructed by done. cbv zeta. fold w s2.
  exists s2. split; [done|]. split.
  { rewrite Hws. apply lookup_lt_is_Some. rewrite length_app. simpl. lia. }
  split; [done|]. split; [done|]. split.
  { rewrite Hdoc. intros Hin. apply in_document_below in Hin; [lia|apply Hwf]. }
  done.
Qed.

Lemma new_without_target_witness :
  let s := Scenario.page_A_failed in
  ∃ s1, new (Some "Retrying") Omitted s = Return 1 s1
        ∧ is_Some (widgets s1 !! 1)
        ∧ registry s1 = registry s
        ∧ in_document (doc s1) = in_document (doc s)
        ∧ (4 ∉ in_document (doc s1))
        ∧ msg 1 s1 = Some "Retrying"
        ∧ shown_indicator 1 s1 = Some Loading
        ∧ msg 0 s1 = msg 0 s
        ∧ shown_indicator 0 s1 = shown_indicator 0 s.
Proof.
  intros s.
  destruct (new_without_target Scenario.page_A_failed (Some "Retrying"))
    as (s1 & Hn & Hw & Hr & Hdoc & Hout & _ & Hmsg & Hind & Hold).
  - apply scenario_pages_plain.
  - reflexivity.
  - exists s1. split; [exact Hn|]. do 4 (split; [done|]).
    split; [by apply Hmsg|]. split; [done|].
    apply (Hold 0). vm_compute. lia.
Defined.

(** X5. On a page the library has built, [new SmartStatus(txt, target)]
    on a target whose key is already registered still returns a new
    widget object: the [false] of [attach] is dropped.  That widget is
    outside the document and registered nowhere, and the registry and the
    document are as before. *)
Theorem new_on_taken_target
    (s : state) (txt : option string) (els : list target_element) (t0 : target_element) :
  reachable s →
  head els = Some t0 → t_id t0 ≠ Some "" →
  is_Some (registry s !! ("smart-" +:+ to_string (t_id t0))) →
  let w := length (widgets s) in
  ∃ s1, new txt (Target els) s = Return w s1
        ∧ is_Some (widgets s1 !! w)
        ∧ registry s1 = registry s
        ∧ (∀ k, find k s1 ≠ VWidget w)
        ∧ in_document (doc s1) = in_document (doc s)
        ∧ (length (elems (doc s)) ∉ in_document (doc s1)).
Proof.
  intros Hreach Hh Hne Hk w. pose proof (reachable_wf s Hreach) as Hwf.
  destruct (new_unattached_state s txt Hwf) as (Hws & Hr & Hb & Hwf2 & _).
  fold w in Hws, Hr, Hb, Hwf2.
  set (s2 := if nonempty txt then set_msg w txt (constructed s) else constructed s)
    in *.
  assert (Hw2 : is_Some (widgets s2 !! w)).
  { rewrite Hws. apply lookup_lt_is_Some. rewrite length_app. simpl. lia. }
  assert (Hdoc : in_document (doc s2) = in_document (doc s)).
  { apply wf_in_document_body; [apply Hwf|apply Hwf2|done]. }
  rewrite new_constructed by done. cbv zeta. fold w s2.
  rewrite (attach_taken s2 w els (t_id t0)); [|done|by rewrite Hh|done|by rewrite Hr].
  exists s2. split; [done|]. split; [done|]. split; [done|]. split.
  { intros k Hf. pose proof (reachable_wf_registry s Hreach) as Hreg.
    unfold find in Hf. rewrite Hr in Hf.
    destruct (registry s !! k) as [w0|] eqn:Hk0; [|done]. injection Hf as ->.
    destruct (Hreg k w Hk0) as [Hlt _]. subst w. lia. }
  split; [done|].
  rewrite Hdoc. intros Hin. apply in_document_below in Hin; [lia|apply Hwf].
Qed.

Lemma new_on_taken_target_witness :
  let s := Scenario.page_A in
  let w := length (widgets s) in
  ∃ s1, new (Some "Retrying") Scenario.btn1 s = Return w s1
        ∧ is_Some (widgets s1 !! w)
        ∧ registry s1 = registry s
        ∧ (∀ k, find k s1 ≠ VWidget w)
        ∧ in_document (doc s1) = in_document (doc s)
        ∧ (length (elems (doc s)) ∉ in_document (doc s1)).
Proof.
  apply (new_on_taken_target Scenario.page_A (Some "Retrying") _
           (TargetElement (Some "btn1") "10px" "40px")).
  - apply scenario_pages_reachable.
  - reflexivity.
  - discriminate.
  - by eexists.
Defined.

(** X6. On a page the library has built, constructing a widget and
    destroying it right away leaves the registry as it was (the key
    ["smart-"] its container carries is never registered), leaves the
    document as it was, and leaves what the other widgets show as it
    was. *)
Theorem new_then_destroy (s : state) (txt : option string) :
  reachable s →
  let w := length (widgets s) in
  ∃ s1 s2, new txt Omitted s = Return w s1
           ∧ destroy w s1 = Return tt s2
           ∧ registry s2 = registry s
           ∧ in_document (doc s2) = in_document (doc s)
           ∧ (∀ w', w' < w → msg w' s2 = msg w' s).
Proof.
  intros Hreach w. pose proof (reachable_wf s Hreach) as Hwf.
  destruct (new_unattached_state s txt Hwf)
    as (Hws & Hr & Hb & Hwf2 & _ & _ & _ & Hattr & Hold).
  fold w in Hws, Hr, Hb, Hwf2, Hattr, Hold.
  set (s2 := if nonempty txt then set_msg w txt (constructed s) else constructed s)
    in *.
  set (n := length (elems (doc s))) in *.
  assert (Hthis : widgets s2 !! w = Some (Widget [n] [n + 1] [n + 2] [n + 3])).
  { rewrite Hws. rewrite lookup_app_r by done. subst w. by rewrite Nat.sub_diag. }
  destruct (destroy_spec s2 w _ Hthis) as (s3 & Hd & Hr3 & Hws3 & _).
  cbn [wrapper] in Hr3. rewrite Hattr in Hr3. cbn [to_string default] in Hr3.
  rewrite new_constructed by done. cbv zeta. fold w s2.
  exists s2, s3. split; [done|]. split; [done|].
  pose proof (reachable_wf_registry s Hreach) as Hreg.
  assert (Hbare : registry s !! "smart-" = None).
  { destruct (registry s !! "smart-") as [w0|] eqn:Hbare; [|done].
    destruct (Hreg _ _ Hbare) as [_ [Hg|(id & Hne & Hid)]]; [done|].
    exfalso. apply Hne. change ("smart-" +:+ "" = "smart-" +:+ id) in Hid.
    by apply smart_key_inj in Hid. }
  split; [by rewrite Hr3, Hr, delete_id|].
  assert (Hs3 : s3 = after (destroy w s2)) by by rewrite Hd.
  assert (Hwf3 : wf s3) by (rewrite Hs3; by apply destroy_wf).
  assert (Hdoc3 : doc s3 = remove [n] (doc s2)).
  { rewrite Hs3. unfold destroy. by rewrite Hthis. }
  split.
  - apply wf_in_document_body; [apply Hwf|apply Hwf3|].
    rewrite Hdoc3, <- Hb. unfold remove. cbn [foldl detach body].
    unfold cleanData. rewrite each_body. apply drop_ref_id. rewrite Hb.
    intros Hin. destruct Hwf as [(_ & _ & Hbody) _].
    destruct (Hbody n Hin). subst n. lia.
  - intros w' Hw'. destruct (Hold w' Hw') as [<- _].
    destruct (lookup_lt_is_Some_2 (widgets s2) w') as [this' Hthis'].
    { rewrite Hws, length_app. fold w. lia. }
    rewrite (msg_unfold s3 w' this') by by rewrite Hws3.
    rewrite (msg_unfold s2 w' this' Hthis'). apply html_ext. intros r.
    rewrite Hdoc3. by apply remove_keeps.
Qed.

Lemma new_then_destroy_witness :
  let s := Scenario.page_A in
  let w := length (widgets s) in
  ∃ s1 s2, new (Some "Retrying") Omitted s = Return w s1
           ∧ destroy w s1 = Return tt s2
           ∧ registry s2 = registry s
           ∧ in_document (doc s2) = in_document (doc s)
           ∧ (∀ w', w' < w → msg w' s2 = msg w' s).
Proof.
  apply (new_then_destroy Scenario.page_A (Some "Retrying")).
  apply scenario_pages_reachable.
Defined.

(** *** Edge cases of [attach] *)

(** X7. [attach] on an empty jQuery object (a selector that matched
    nothing) reads an undefined id and so goes for the key
    ["smart-undefined"]: when that key is free the call throws, at
    [getComputedStyle(target[0])], before anything is changed; when the key
    is held it returns [false] without [overwrite] and changes nothing. *)
Theorem attach_to_empty_selection (s : state) (w : wid) (overwrite : bool) :
  is_Some (widgets s !! w) →
  (registry s !! "smart-undefined" = None →
     attach w (Target []) overwrite s = Throw s)
  ∧ (is_Some (registry s !! "smart-undefined") →
     attach w (Target []) false s = Return VFalse s).
Proof.
  intros [this Hw]. split.
  - intros Hk. unfold attach. rewrite Hw.
    change (head [] ≫= t_id) with (@None string).
    destruct (decide (None = Some "")) as [|_]; [done|].
    change ("smart-" +:+ to_string None) with "smart-undefined".
    by rewrite (find_free _ _ Hk).
  - intros Hk. by apply (attach_taken s w [] None); [eexists| | |].
Qed.

Lemma attach_to_empty_selection_witness :
  attach 0 (Target []) true Scenario.page_A = Throw Scenario.page_A
  ∧ attach 1 (Target []) false Scenario.page_N_M = Return VFalse Scenario.page_N_M.
Proof.
  split.
  - apply (attach_to_empty_selection Scenario.page_A 0 true).
    + by eexists.
    + reflexivity.
  - apply (attach_to_empty_selection Scenario.page_N_M 1 false).
    + by eexists.
    + by eexists.
Defined.

(** X12. [attach] on a target whose id is the empty string returns
    [false], whatever [overwrite] is, and destroys the widget: its
    container is taken out of the document and the entry under the key
    the container carries is deleted, so a widget that was attached is
    attached no more.  No entry is added. *)
Theorem attach_rejects_empty_id
    (s : state) (w : wid) (this : widget)
    (els : list target_element) (t0 : target_element) (overwrite : bool) :
  widgets s !! w = Some this →
  head els = Some t0 → t_id t0 = Some "" →
  ∃ s1, attach w (Target els) overwrite s = Return VFalse s1
        ∧ registry s1
          = delete (to_string (attr_data_id (wrapper this) (doc s))) (registry s)
        ∧ find (to_string (attr_data_id (wrapper this) (doc s))) s1 = VFalse
        ∧ (∀ c, c ∈ wrapper this → c ∉ in_document (doc s1)).
Proof.
  intros Hw Hh Hid.
  destruct (destroy_spec s w this Hw) as (s1 & Hd & Hr & _ & Hdoc).
  exists s1. unfold attach. rewrite Hw, Hh. simpl. rewrite Hid.
  destruct (decide (Some "" = Some "")) as [_|]; [|done].
  rewrite Hd. split; [done|]. split; [done|]. split; [|done].
  apply find_free. rewrite Hr. apply lookup_delete_eq.
Qed.

Lemma attach_rejects_empty_id_witness :
  ∃ s1, attach 0 (Target [TargetElement (Some "") "0px" "0px"]) true Scenario.page_A
        = Return VFalse s1
        ∧ registry s1
          = delete (to_string (attr_data_id [0] (doc Scenario.page_A)))
                   (registry Scenario.page_A)
        ∧ find (to_string (attr_data_id [0] (doc Scenario.page_A))) s1 = VFalse
        ∧ (∀ c, c ∈ [0] → c ∉ in_document (doc s1)).
Proof.
  apply (attach_rejects_empty_id Scenario.page_A 0 (Widget [0] [1] [2] [3]) _
           (TargetElement (Some "") "0px" "0px") true).
  - reflexivity.
  - reflexivity.
  - reflexivity.
Defined.

(** X11. A widget that is registered under one key and attaches to a
    second target whose key is free ends up registered under both keys:
    [attach] enters the new key and leaves the old entry where it is. *)
Theorem attach_again_keeps_old_key
    (s : state) (w : wid) (k1 : string)
    (els : list target_element) (t0 : target_element) :
  registry s !! k1 = Some w →
  is_Some (widgets s !! w) →
  head els = Some t0 → t_id t0 ≠ Some "" →
  registry s !! ("smart-" +:+ to_string (t_id t0)) = None →
  ∃ s1, attach w (Target els) false s = Return (VWidget w) s1
        ∧ find k1 s1 = VWidget w
        ∧ find ("smart-" +:+ to_string (t_id t0)) s1 = VWidget w.
Proof.
  intros Hk1 Hw Hh Hne Hk2.
  destruct (attach_free s w els t0 false Hw Hh Hne Hk2) as (s1 & Ha & Hr & _).
  exists s1. split; [done|]. split; apply find_taken; rewrite Hr.
  - rewrite lookup_insert_ne; [done|]. intros Heq. rewrite Heq in Hk2.
    by rewrite Hk1 in Hk2.
  - apply lookup_insert_eq.
Qed.

Lemma attach_again_keeps_old_key_witness :
  ∃ s1, attach 0 Scenario.btn2 false Scenario.page_A = Return (VWidget 0) s1
        ∧ find "smart-btn1" s1 = VWidget 0
        ∧ find ("smart-" +:+ to_string (Some "btn2")) s1 = VWidget 0.
Proof.
  apply (attach_again_keeps_old_key Scenario.page_A 0 "smart-btn1" _
           (TargetElement (Some "btn2") "10px" "90px")).
  - reflexivity.
  - by eexists.
  - reflexivity.
  - discriminate.
  - reflexivity.
Defined.

(** *** Where [attach] puts the container *)

Lemma append_to_body_keeps {A} (g : element → A) r d x :
  (∀ c e, g (with_children c e) = g e) →
  g <$> elems (append_to_body r d) !! x = g <$> elems d !! x.
Proof. intros Hg. by apply (detach_keeps g r d x). Qed.

Lemma appendTo_body_keeps {A} (g : element → A) q d x :
  (∀ c e, g (with_children c e) = g e) →
  g <$> elems (appendTo_body q d) !! x = g <$> elems d !! x.
Proof.
  intros Hg. revert d. induction q as [|r q IH]; intros d; [done|].
  unfold appendTo_body in *. simpl. rewrite IH. by apply append_to_body_keeps.
Qed.

Lemma append_to_body_elem p x d :
  p ∈ body d ∨ p = x → p ∈ body (append_to_body x d).
Proof.
  intros Hp. unfold append_to_body. cbn [body detach]. apply elem_of_app.
  destruct (decide (p = x)) as [->|Hne]; [right; by left|].
  left. unfold drop_ref. apply list_elem_of_filter. by destruct Hp.
Qed.

Lemma appendTo_body_elem p q d :
  p ∈ body d ∨ p ∈ q → p ∈ body (appendTo_body q d).
Proof.
  revert d. induction q as [|x q IH]; intros d Hp.
  - destruct Hp as [?|Hp]; [done|]. by apply elem_of_nil in Hp.
  - unfold appendTo_body in *. simpl. apply IH.
    destruct Hp as [Hp|[->|Hp]%elem_of_cons]; [left|left|by right];
      apply append_to_body_elem; auto.
Qed.

Lemma in_body_in_document d p :
  p ∈ body d → is_Some (elems d !! p) → p ∈ in_document d.
Proof.
  intros Hp [e He]. unfold in_document. apply list_elem_of_bind. exists p.
  split; [|done]. pose proof (lookup_lt_Some _ _ _ He) as Hlt.
  destruct (length (elems d)) as [|n]; [lia|]. simpl. rewrite He. by left.
Qed.

(** X8. When [attach] succeeds on a free key, every element of the
    widget's container gets the target's computed [left] as its [left]
    and the target's computed [bottom] as its [top], carries the key as
    its data-id, and is in the document, as the last child of the body
    when the container is a single element. *)
Theorem attach_places_container
    (s : state) (w : wid) (this : widget)
    (els : list target_element) (t0 : target_element) (overwrite : bool) (p : ref) :
  widgets s !! w = Some this →
  head els = Some t0 → t_id t0 ≠ Some "" →
  registry s !! ("smart-" +:+ to_string (t_id t0)) = None →
  p ∈ wrapper this → is_Some (elems (doc s) !! p) →
  ∃ s1, attach w (Target els) overwrite s = Return (VWidget w) s1
        ∧ css_left <$> elems (doc s1) !! p = Some (Some (t_left t0))
        ∧ css_top <$> elems (doc s1) !! p = Some (Some (t_bottom t0))
        ∧ data_id <$> elems (doc s1) !! p
          = Some (Some ("smart-" +:+ to_string (t_id t0)))
        ∧ p ∈ in_document (doc s1)
        ∧ (wrapper this = [p] → last (body (doc s1)) = Some p).
Proof.
  intros Hw Hh Hne Hk Hp Hstore.
  set (key := "smart-" +:+ to_string (t_id t0)) in *.
  set (d1 := css (t_left t0) (t_bottom t0) (wrapper this) (doc s)).
  set (d2 := appendTo_body (wrapper this) d1).
  set (d3 := set_attr_data_id key (wrapper this) d2).
  assert (Ha : attach w (Target els) overwrite s
               = Return (VWidget w) (State d3 (widgets s) (<[key := w]> (registry s)))).
  { unfold attach. rewrite Hw, Hh. simpl.
    destruct (decide (t_id t0 = Some "")) as [|_]; [done|].
    fold key. by rewrite (find_free _ _ Hk). }
  eexists. split; [exact Ha|]. cbn [doc].
  assert (Hl1 : length (elems d1) = length (elems (doc s))) by apply each_length.
  assert (Hl2 : length (elems d2) = length (elems (doc s))).
  { unfold d2. by rewrite appendTo_body_length. }
  assert (Hcss : ∀ (g : element → option string) v,
            (∀ e, g (with_css (t_left t0) (t_bottom t0) e) = v) →
            (∀ c e, g (with_children c e) = g e) →
            (∀ k e, g (with_data_id k e) = g e) →
            g <$> elems d3 !! p = Some v).
  { intros g v Hv Hc Hdata. unfold d3, set_attr_data_id.
    rewrite each_keeps by done. unfold d2. rewrite appendTo_body_keeps by done.
    unfold d1, css. by apply each_sets. }
  split; [by apply Hcss|]. split; [by apply Hcss|]. split; [|split].
  - unfold d3, set_attr_data_id. apply each_sets; [done|done|].
    apply lookup_lt_is_Some. rewrite Hl2. by apply lookup_lt_is_Some.
  - apply in_body_in_document.
    + unfold d3, set_attr_data_id. rewrite each_body.
      apply appendTo_body_elem. by right.
    + apply lookup_lt_is_Some. unfold d3, set_attr_data_id.
      rewrite each_length, Hl2. by apply lookup_lt_is_Some.
  - intros Hsingle. unfold d3, set_attr_data_id. rewrite each_body.
    unfold d2. rewrite Hsingle. unfold appendTo_body, append_to_body.
    cbn [foldl body]. apply last_snoc.
Qed.

Lemma attach_places_container_witness :
  ∃ s1, attach 0 Scenario.btn1 false Scenario.page_detached = Return (VWidget 0) s1
        ∧ css_left <$> elems (doc s1) !! 0 = Some (Some "10px")
        ∧ css_top <$> elems (doc s1) !! 0 = Some (Some "40px")
        ∧ data_id <$> elems (doc s1) !! 0
          = Some (Some ("smart-" +:+ to_string (Some "btn1")))
        ∧ 0 ∈ in_document (doc s1)
        ∧ ([0] = [0] → last (body (doc s1)) = Some 0).
Proof.
  apply (attach_places_container Scenario.page_detached 0 (Widget [0] [1] [2] [3])
           _ (TargetElement (Some "btn1") "10px" "40px") false 0).
  - reflexivity.
  - reflexivity.
  - discriminate.
  - reflexivity.
  - by left.
  - by eexists.
Defined.

(** X13. When a page-level [attach] succeeds, every element of the
    widget's container carries the page-level key as its data-id and is in
    the document, as the last child of the body when the container is a
    single element; its inline position is left as it was. *)
Theorem page_level_attach_places_container
    (s : state) (w : wid) (this : widget) (tgt : target) (overwrite : bool) (p : ref) :
  widgets s !! w = Some this →
  tgt = Omitted ∨ tgt = DocumentBody →
  registry s !! global_key = None →
  p ∈ wrapper this → is_Some (elems (doc s) !! p) →
  ∃ s1, attach w tgt overwrite s = Return (VWidget w) s1
        ∧ data_id <$> elems (doc s1) !! p = Some (Some global_key)
        ∧ css_left <$> elems (doc s1) !! p = css_left <$> elems (doc s) !! p
        ∧ css_top <$> elems (doc s1) !! p = css_top <$> elems (doc s) !! p
        ∧ p ∈ in_document (doc s1)
        ∧ (wrapper this = [p] → last (body (doc s1)) = Some p).
Proof.
  intros Hw Htgt Hk Hp Hstore.
  set (d1 := set_attr_data_id global_key (wrapper this) (doc s)).
  set (d2 := appendTo_body (wrapper this) d1).
  assert (Ha : attach w tgt overwrite s
               = Return (VWidget w)
                        (State d2 (widgets s) (<[global_key := w]> (registry s)))).
  { unfold attach. rewrite Hw.
    by destruct Htgt as [-> | ->]; rewrite (find_free _ _ Hk). }
  eexists. split; [exact Ha|]. cbn [doc].
  assert (Hl1 : length (elems d1) = length (elems (doc s))) by apply each_length.
  assert (Hkeep : ∀ (g : element → option string),
            (∀ c e, g (with_children c e) = g e) →
            (∀ k e, g (with_data_id k e) = g e) →
            g <$> elems d2 !! p = g <$> elems (doc s) !! p).
  { intros g Hc Hdata. unfold d2. rewrite appendTo_body_keeps by done.
    unfold d1, set_attr_data_id. by apply each_keeps. }
  split; [|split; [by apply Hkeep|split; [by apply Hkeep|split]]].
  - unfold d2. rewrite appendTo_body_keeps by done.
    unfold d1, set_attr_data_id. by apply each_sets.
  - apply in_body_in_document.
    + unfold d2. apply appendTo_body_elem. by right.
    + apply lookup_lt_is_Some. unfold d2.
      rewrite appendTo_body_length, Hl1. by apply lookup_lt_is_Some.
  - intros Hsingle. unfold d2. rewrite Hsingle.
    unfold appendTo_body, append_to_body. cbn [foldl body]. apply last_snoc.
Qed.

Lemma page_level_attach_places_container_witness :
  ∃ s1, attach 0 Omitted false Scenario.page_detached = Return (VWidget 0) s1
        ∧ data_id <$> elems (doc s1) !! 0 = Some (Some global_key)
        ∧ css_left <$> elems (doc s1) !! 0
          = css_left <$> elems (doc Scenario.page_detached) !! 0
        ∧ css_top <$> elems (doc s1) !! 0
          = css_top <$> elems (doc Scenario.page_detached) !! 0
        ∧ 0 ∈ in_document (doc s1)
        ∧ ([0] = [0] → last (body (doc s1)) = Some 0).
Proof.
  apply (page_level_attach_places_container Scenario.page_detached 0
           (Widget [0] [1] [2] [3]) Omitted false 0).
  - reflexivity.
  - by left.
  - reflexivity.
  - by left.
  - by eexists.
Defined.

(** *** Destroying twice *)

Lemma subtree_detach_subset r d n y x :
  x ∈ subtree n (elems (detach r d)) y → x ∈ subtree n (elems d) y.
Proof.
  revert y. induction n as [|n IH]; intros y; [done|]. simpl.
  rewrite list_lookup_fmap. destruct (elems d !! y) as [e|]; [|done]. simpl.
  intros [->|Hx]%elem_of_cons; [by left|]. right.
  apply list_elem_of_bind in Hx as (c & Hx & Hc).
  apply list_elem_of_bind. exists c. split; [by apply IH|].
  unfold drop_ref in Hc. by apply list_elem_of_filter in Hc as [_ ?].
Qed.

Lemma subtree_after_step r d y x :
  x ∈ subtree (length (elems (remove [r] d))) (elems (remove [r] d)) y →
  x ∈ subtree (length (elems d)) (elems d) y.
Proof.
  unfold remove. cbn [foldl]. rewrite detach_length. unfold cleanData.
  rewrite each_length. intros Hx%subtree_detach_subset.
  erewrite subtree_ext in Hx; [done|]. intros z. by apply each_keeps.
Qed.

Lemma on_click_stays_false nodes d x :
  on_click <$> elems d !! x = Some false →
  on_click <$> elems (cleanData nodes d) !! x = Some false.
Proof.
  intros Hx. destruct (elems (cleanData nodes d) !! x) as [e'|] eqn:He'.
  - simpl. f_equal.
    apply (foldl_alter_invariant (λ r e, r = x → on_click e = false)
             without_handlers nodes (elems d)) with (r := x) (e := e'); try done.
    intros r e Hr -> . destruct (elems d !! x) as [e0|]; by simplify_eq/=.
  - apply lookup_ge_None in He'. unfold cleanData in He'. rewrite each_length in He'.
    apply lookup_ge_None in He'. by rewrite He' in Hx.
Qed.

Lemma step_handler_free_self r d : handler_free (remove [r] d) r.
Proof.
  intros x e Hx%subtree_after_step He.
  assert (Hc : on_click <$> elems (remove [r] d) !! x = Some false).
  { unfold remove. cbn [foldl]. rewrite detach_keeps by done.
    unfold cleanData. apply each_sets; [done|done|].
    apply lookup_lt_Some in He. rewrite remove_length in He.
    by apply lookup_lt_is_Some. }
  rewrite He in Hc. by simplify_eq/=.
Qed.

Lemma step_keeps_handler_free r' r d :
  handler_free d r → handler_free (remove [r'] d) r.
Proof.
  intros Hfree x e Hx%subtree_after_step He.
  destruct (lookup_lt_is_Some_2 (elems d) x) as [e0 He0].
  { apply lookup_lt_Some in He. by rewrite remove_length in He. }
  assert (Hc : on_click <$> elems (remove [r'] d) !! x = Some false).
  { unfold remove. cbn [foldl]. rewrite detach_keeps by done.
    apply on_click_stays_false. rewrite He0. simpl. f_equal. by eapply Hfree. }
  rewrite He in Hc. by simplify_eq/=.
Qed.

Lemma remove_cons r q d : remove (r :: q) d = remove q (remove [r] d).
Proof. done. Qed.

Lemma remove_keeps_handler_free q r d :
  handler_free d r → handler_free (remove q d) r.
Proof.
  revert d. induction q as [|x q IH]; intros d Hfree; [done|].
  rewrite remove_cons. by apply IH, step_keeps_handler_free.
Qed.

Lemma remove_handler_free q r d : r ∈ q → handler_free (remove q d) r.
Proof.
  revert d. induction q as [|x q IH]; intros d Hr.
  - by apply elem_of_nil in Hr.
  - rewrite remove_cons. destruct (decide (r ∈ q)) as [Hq|Hq]; [by apply IH|].
    apply elem_of_cons in Hr as [->|]; [|done].
    apply remove_keeps_handler_free, step_handler_free_self.
Qed.

Lemma without_handlers_id e : on_click e = false → without_handlers e = e.
Proof. destruct e. simpl. by intros ->. Qed.

Lemma each_id f (q : list nat) d :
  (∀ r e, r ∈ q → elems d !! r = Some e → f e = e) → each f q d = d.
Proof.
  intros Hf. destruct d as [h b fx]. unfold each. cbn [elems body body_fx] in *.
  f_equal. induction q as [|r q IH]; [done|]. simpl.
  assert (Hstep : alter f r h = h).
  { apply list_eq. intros i. destruct (decide (r = i)) as [->|Hne].
    - rewrite list_lookup_alter_eq. destruct (h !! i) as [e|] eqn:He; [|done].
      simpl. f_equal. apply (Hf i); [by left|done].
    - by rewrite list_lookup_alter_ne. }
  rewrite Hstep. apply IH. intros r' e Hr'. apply Hf. by right.
Qed.

(** Removing what is already out of the document and has no handler left
    changes nothing. *)
Lemma remove_id q d :
  (∀ r, r ∈ q → unlinked r d ∧ handler_free d r) → remove q d = d.
Proof.
  induction q as [|r q IH]; intros Hq; [done|].
  rewrite remove_cons.
  assert (Hstep : remove [r] d = d).
  { destruct (Hq r) as [Hun Hfree]; [by left|].
    unfold remove. cbn [foldl]. unfold cleanData. rewrite each_id.
    - by apply detach_unlinked.
    - intros x e Hx He. apply without_handlers_id. by eapply Hfree. }
  rewrite Hstep. apply IH. intros r' Hr'. apply Hq. by right.
Qed.

(** X14. [destroy()] may be called again: the second call returns like
    the first and leaves the state exactly as the first call left it. *)
Theorem destroy_twice (s : state) (w : wid) :
  is_Some (widgets s !! w) →
  ∃ s1, destroy w s = Return tt s1 ∧ destroy w s1 = Return tt s1.
Proof.
  intros [this Hw]. unfold destroy at 1. rewrite Hw. eexists. split; [done|].
  unfold destroy. cbn [widgets set_registry on_doc doc registry]. rewrite Hw.
  unfold set_registry, on_doc. cbn [doc widgets registry].
  rewrite (remove_id (wrapper this) (remove (wrapper this) (doc s))).
  - by rewrite delete_delete_eq.
  - intros r Hr. split; [by apply remove_unlinks|by apply remove_handler_free].
Qed.

Lemma destroy_twice_witness :
  ∃ s1, destroy 0 Scenario.page_A = Return tt s1 ∧ destroy 0 s1 = Return tt s1.
Proof.
  apply (destroy_twice Scenario.page_A 0). by eexists.
Defined.

(** *** [reset] before [final] *)

(** X15. On a page built from plain text and safe identifiers, for a
    widget with one icon and one banner element and a plain text [t]:
    [reset()] followed by [final(t, success)] leaves
    the message [t], the indicator the outcome asked for (and no other),
    and no spinner styling, whatever outcome the widget showed before. *)
Theorem reset_then_final
    (s : state) (w : wid) (this : widget) (sp bn : ref) (t : string) (success : bool) :
  plain_reachable s → widgets s !! w = Some this →
  spinner this = [sp] → banner this = [bn] → plain t = true →
  ∃ s1 s2, reset w s = Return (VWidget w) s1
           ∧ final w (Some t) success s1 = Return (VWidget w) s2
           ∧ msg w s2 = Some t
           ∧ shown_indicator w s2 = Some (if success then Success else Failure)
           ∧ first (λ e, spinning (classes e)) [sp] (doc s2) = Some false.
Proof.
  intros Hreach Hw Hsp Hbn _.
  pose proof (plain_reachable_wf s Hreach) as [Hd Hws].
  destruct (Hws w this Hw) as (_ & Hspr & Hbnr & _).
  unfold reset. rewrite Hw.
  set (s1 := on_doc _ (set_msg w (Some "Loading...") s)).
  assert (Hlen : length (elems (doc s1)) = length (elems (doc s))).
  { subst s1. unfold on_doc. cbn [doc]. unfold set_attr_class.
    by rewrite each_length, set_msg_length. }
  assert (Hw1 : widgets s1 !! w = Some this).
  { subst s1. cbn [widgets on_doc]. by rewrite set_msg_widgets. }
  assert (Hcls : classes <$> elems (doc s1) !! sp
                 = Some ["fa"; "fa-spinner"; "fa-spin"]).
  { subst s1. unfold on_doc. cbn [doc]. unfold set_attr_class.
    apply each_sets; [done|rewrite Hsp; by left|].
    apply lookup_lt_is_Some. rewrite set_msg_length.
    destruct (Hspr sp); [rewrite Hsp; by left|done]. }
  destruct (elems (doc s1) !! sp) as [e|] eqn:He; [|done].
  injection Hcls as Hcls.
  destruct (final_on_plain_icon s1 w this sp bn e t success)
    as (s2 & Hf & Hm & Hi & Hspin & _); try done.
  - apply lookup_lt_is_Some. rewrite Hlen.
    destruct (Hbnr bn); [rewrite Hbn; by left|done].
  - rewrite Hcls. apply (bool_decide_unpack _). by vm_compute.
  - rewrite Hcls. apply (bool_decide_unpack _). by vm_compute.
  - exists s1, s2. done.
Qed.

Lemma reset_then_final_witness :
  ∃ s1 s2, reset 0 Scenario.page_A_failed = Return (VWidget 0) s1
           ∧ final 0 (Some "Done") true s1 = Return (VWidget 0) s2
           ∧ msg 0 s2 = Some "Done"
           ∧ shown_indicator 0 s2 = Some Success
           ∧ first (λ e, spinning (classes e)) [1] (doc s2) = Some false.
Proof.
  apply (reset_then_final Scenario.page_A_failed 0 (Widget [0] [1] [2] [3])
           1 2 "Done" true).
  - apply scenario_pages_plain.
  - reflexivity.
  - reflexivity.
  - reflexivity.
  - reflexivity.
Defined.

End Behaviour.
